(** * The IMU sensor of gazebo: [gazebo/sensors/ImuSensor.cc]

    A shallow embedding of [gazebo::sensors::ImuSensor] and the properties
    of its update cycle, its link-data buffer and its discovery handshake.

    Conventions.
    - The C++ [double] and [common::Time] are kept abstract in the class
      [Numeric]: every definition of the sensor is written over it, so the
      results on control flow and state hold for any arithmetic, IEEE 754
      included.  The instance [Exact] takes the rationals for [double] and
      nanoseconds for [common::Time]; it is used where a statement needs
      the laws of a field, and to run the code on concrete inputs.  The
      instance [Binary64] takes the binary64 numbers for [double].
    - [boost::mutex::scoped_lock] makes [OnLinkData] and [UpdateImpl]
      mutually exclusive; both are modelled as atomic state transformers.
    - A null [boost::shared_ptr] is [None]; dereferencing it ends the run
      with [NullDeref].  [gzthrow] ends it with [Throw]. *)

From Stdlib Require Import Bool List String Ascii ZArith QArith Qcanon Lia.
From Stdlib Require Import PrimFloat.
Import ListNotations.

Close Scope Qc_scope.
Close Scope Q_scope.

Set Implicit Arguments.

(** ** Outcomes of a member function *)

Inductive Result (A : Type) : Type :=
| Ok (a : A)
| Throw (what : string)
| NullDeref.

Arguments Ok {A} a.
Arguments Throw {A} what.
Arguments NullDeref {A}.

Definition bind {A B : Type} (r : Result A) (k : A -> Result B) : Result B :=
  match r with
  | Ok a => k a
  | Throw m => Throw m
  | NullDeref => NullDeref
  end.

Notation "'do' x <- r ; k" := (bind r (fun x => k))
  (at level 10, x name, r at level 100, k at level 200).

(** ** Scalars and time *)

(** [double] with the operations the sensor uses, and [common::Time] with
    its default constructor, its difference and [Time::Double]. *)
Class Numeric : Type := {
  double : Type;
  d0 : double;
  d1 : double;
  dadd : double -> double -> double;
  dsub : double -> double -> double;
  dmul : double -> double -> double;
  ddiv : double -> double -> double;
  dopp : double -> double;
  dgt : double -> double -> bool;
  Time : Type;
  Time_default : Time;
  Time_sub : Time -> Time -> Time;
  Time_Double : Time -> double
}.

(** ** gazebo::math *)

Module math.
Section Math.
Context {N : Numeric}.

Record Vector3 : Type := mkVector3 { vx : double; vy : double; vz : double }.

Record Quaternion : Type :=
  mkQuaternion { qw : double; qx : double; qy : double; qz : double }.

Record Pose : Type := mkPose { pos : Vector3; rot : Quaternion }.

(** Modelled from the spec: [gazebo/math/Vector3.cc] is not under src/.
    The default constructor, [operator-] and [operator/(double)] work
    component by component. *)
Definition Vector3_zero : Vector3 := mkVector3 d0 d0 d0.

Definition vadd (a b : Vector3) : Vector3 :=
  mkVector3 (dadd (vx a) (vx b)) (dadd (vy a) (vy b)) (dadd (vz a) (vz b)).

Definition vsub (a b : Vector3) : Vector3 :=
  mkVector3 (dsub (vx a) (vx b)) (dsub (vy a) (vy b)) (dsub (vz a) (vz b)).

Definition vdiv (a : Vector3) (k : double) : Vector3 :=
  mkVector3 (ddiv (vx a) k) (ddiv (vy a) k) (ddiv (vz a) k).

(** Modelled from the spec: [gazebo/math/Quaternion.cc] is not under src/.
    [operator*] is the Hamilton product, [GetInverse] the conjugate over
    the squared norm (the inverse of the spec's
    [currentWorldOrientation * inverse(referenceOrientation)]), and
    [RotateVector] conjugates the pure quaternion of the vector.  What the
    real [GetInverse] returns for a quaternion of norm zero is not
    modelled: orientations are unit quaternions. *)
Definition Quaternion_identity : Quaternion := mkQuaternion d1 d0 d0 d0.

Definition qmul (a b : Quaternion) : Quaternion :=
  mkQuaternion
    (dsub (dsub (dsub (dmul (qw a) (qw b)) (dmul (qx a) (qx b)))
                (dmul (qy a) (qy b))) (dmul (qz a) (qz b)))
    (dsub (dadd (dadd (dmul (qw a) (qx b)) (dmul (qx a) (qw b)))
                (dmul (qy a) (qz b))) (dmul (qz a) (qy b)))
    (dadd (dadd (dsub (dmul (qw a) (qy b)) (dmul (qx a) (qz b)))
                (dmul (qy a) (qw b))) (dmul (qz a) (qx b)))
    (dadd (dsub (dadd (dmul (qw a) (qz b)) (dmul (qx a) (qy b)))
                (dmul (qy a) (qx b))) (dmul (qz a) (qw b))).

Definition qnorm2 (q : Quaternion) : double :=
  dadd (dadd (dadd (dmul (qw q) (qw q)) (dmul (qx q) (qx q)))
             (dmul (qy q) (qy q))) (dmul (qz q) (qz q)).

Definition GetInverse (q : Quaternion) : Quaternion :=
  let s := qnorm2 q in
  mkQuaternion (ddiv (qw q) s) (ddiv (dopp (qx q)) s)
               (ddiv (dopp (qy q)) s) (ddiv (dopp (qz q)) s).

Definition RotateVector (q : Quaternion) (v : Vector3) : Vector3 :=
  let tmp := mkQuaternion d0 (vx v) (vy v) (vz v) in
  let tmp := qmul q (qmul tmp (GetInverse q)) in
  mkVector3 (qx tmp) (qy tmp) (qz tmp).

(** Modelled from the spec: [gazebo/math/Pose.cc] is not under src/.
    [a + b] composes the local pose [a] onto the pose [b] of its parent:
    the position of [a] is rotated by [b] and moved to [b], the rotations
    are multiplied. *)
Definition Pose_add (a b : Pose) : Pose :=
  mkPose (vadd (pos b) (RotateVector (rot b) (pos a)))
         (qmul (rot b) (rot a)).

End Math.
End math.
Import math.

(** ** Messages, transport, world *)

Module msgs.
Section Msgs.
Context {N : Numeric}.

(** [msgs::IMU].  [msgs::Set] and [msgs::Convert] copy a vector, a
    quaternion or a time component by component, so the message holds the
    [math] values themselves. *)
Record IMU : Type := mkIMU {
  entity_name : string;
  stamp : Time;
  orientation : Quaternion;
  angular_velocity : Vector3;
  linear_acceleration : Vector3
}.

Definition set_entity_name (v : string) (m : IMU) : IMU :=
  mkIMU v (stamp m) (orientation m) (angular_velocity m)
        (linear_acceleration m).

Definition set_stamp (v : Time) (m : IMU) : IMU :=
  mkIMU (entity_name m) v (orientation m) (angular_velocity m)
        (linear_acceleration m).

Definition set_orientation (v : Quaternion) (m : IMU) : IMU :=
  mkIMU (entity_name m) (stamp m) v (angular_velocity m)
        (linear_acceleration m).

Definition set_angular_velocity (v : Vector3) (m : IMU) : IMU :=
  mkIMU (entity_name m) (stamp m) (orientation m) v
        (linear_acceleration m).

Definition set_linear_acceleration (v : Vector3) (m : IMU) : IMU :=
  mkIMU (entity_name m) (stamp m) (orientation m) (angular_velocity m) v.

(** [msgs::Request] and [msgs::Response]: only the fields the sensor
    reads. *)
Record Request : Type := mkRequest { request_id : Z; request : string }.

Record Response : Type := mkResponse { response_id : Z }.

(** Modelled from the spec: [msgs::LinkData] is declared outside src/.
    It is the spec's KinematicSample: a time and the pose and velocities
    of the parent body in the world frame. *)
Record LinkData : Type := mkLinkData {
  timestamp : Time;
  worldPose : Pose;
  worldLinearVelocity : Vector3;
  worldAngularVelocity : Vector3
}.

(** [msgs::CreateRequest]: the identifier is chosen by the message
    library; it is an input of the model. *)
Definition CreateRequest (what : string) (id : Z) : Request :=
  mkRequest id what.

End Msgs.
End msgs.
Import msgs.

Module transport.
Section Transport.
Context {N : Numeric}.

(** A publisher is the topic it was advertised on. *)
Record Publisher : Type := mkPublisher { pub_topic : string }.

Inductive Callback : Type := CbOnResponse | CbOnLinkData.

Record Subscriber : Type :=
  mkSubscriber { sub_topic : string; sub_callback : Callback }.

(** Modelled from the spec: [transport::Node] is not under src/.
    [Advertise] and [Subscribe] establish a channel on the topic they are
    given and return its handle. *)
Definition Advertise (topic : string) : Publisher := mkPublisher topic.

Definition Subscribe (topic : string) (cb : Callback) : Subscriber :=
  mkSubscriber topic cb.

Inductive Message : Type :=
| MsgIMU (m : IMU)
| MsgRequest (m : Request).

(** What [Publisher::Publish] hands to the transport. *)
Record Packet : Type := mkPacket { via : Publisher; payload : Message }.

End Transport.
End transport.
Import transport.

Module physics.
Section Physics.
Context {N : Numeric}.

(** The state of a [physics::Link] as the sensor queries it.
    [GetWorldLinearVelAt] is the overload called with a [common::Time] and
    an offset: it gets the caller's time value and returns the time the
    caller holds afterwards together with the velocity of the offset
    point. *)
Record Link : Type := mkLink {
  GetScopedName : string;
  GetWorldPose : Pose;
  GetWorldLinearVel : Vector3;
  GetWorldLinearVelAt : Time -> Vector3 -> Time * Vector3;
  GetWorldAngularVel : Vector3
}.

Definition LinkPtr : Type := nat.

(** What [World::GetEntity] can return: a link, or an entity of another
    kind (a model, a collision, ...). *)
Inductive Entity : Type :=
| EntityLink (p : LinkPtr)
| EntityOther.

(** The world at the time of a call.  A [LinkPtr] held by the sensor
    keeps its link alive, so [deref] is total. *)
Record World : Type := mkWorld {
  GetEntity : string -> option Entity;
  deref : LinkPtr -> Link;
  GetGravity : Vector3
}.

(** [boost::shared_dynamic_cast<physics::Link>]: null for a null entity
    and for an entity that is not a link. *)
Definition shared_dynamic_cast_Link (e : option Entity) : option LinkPtr :=
  match e with
  | Some (EntityLink p) => Some p
  | Some EntityOther => None
  | None => None
  end.

End Physics.
End physics.
Import physics.

(** The part of the sensor's description ([sdf::ElementPtr]) that [Load]
    reads: the [imu] element, if any, and its [topic] element, if any. *)
Record sdf_ImuElement : Type := mk_sdf_ImuElement { topic : option string }.

Record sdf_Element : Type := mk_sdf_Element { imu : option sdf_ImuElement }.

(** [boost::replace_all(topicName, "::", "/")]: every occurrence of two
    colons, scanning from the left. *)
Fixpoint replace_all_colons (s : string) : string :=
  match s with
  | EmptyString => EmptyString
  | String c r =>
      match r with
      | String c' r' =>
          if (Ascii.eqb c ":" && Ascii.eqb c' ":")%bool
          then String "/" (replace_all_colons r')
          else String c (replace_all_colons r)
      | EmptyString => String c EmptyString
      end
  end.

(** ** The sensor *)

Section Sensor.
Context {N : Numeric}.

(** The members of [ImuSensor], those of its base class [Sensor] that the
    file reads first. *)
Record ImuSensor : Type := mkImuSensor {
  name : string;
  parentName : string;
  active : bool;
  pose : Pose;
  sdf : sdf_Element;
  parentEntity : option LinkPtr;
  referencePose : Pose;
  lastLinearVel : Vector3;
  lastMeasurementTime : Time;
  linearAcc : Vector3;
  gravity : Vector3;
  imuMsg : IMU;
  incomingLinkData : list LinkData;
  pub : option Publisher;
  requestPub : option Publisher;
  responseSub : option Subscriber;
  requestMsg : option Request
}.

(** Assignment to one member. *)
Definition set_active (v : bool) (s : ImuSensor) : ImuSensor :=
  mkImuSensor (name s) (parentName s) v (pose s) (sdf s) (parentEntity s)
    (referencePose s) (lastLinearVel s) (lastMeasurementTime s)
    (linearAcc s) (gravity s) (imuMsg s) (incomingLinkData s) (pub s)
    (requestPub s) (responseSub s) (requestMsg s).

Definition set_parentEntity (v : option LinkPtr) (s : ImuSensor) : ImuSensor :=
  mkImuSensor (name s) (parentName s) (active s) (pose s) (sdf s) v
    (referencePose s) (lastLinearVel s) (lastMeasurementTime s)
    (linearAcc s) (gravity s) (imuMsg s) (incomingLinkData s) (pub s)
    (requestPub s) (responseSub s) (requestMsg s).

Definition set_referencePose (v : Pose) (s : ImuSensor) : ImuSensor :=
  mkImuSensor (name s) (parentName s) (active s) (pose s) (sdf s)
    (parentEntity s) v (lastLinearVel s) (lastMeasurementTime s)
    (linearAcc s) (gravity s) (imuMsg s) (incomingLinkData s) (pub s)
    (requestPub s) (responseSub s) (requestMsg s).

Definition set_lastLinearVel (v : Vector3) (s : ImuSensor) : ImuSensor :=
  mkImuSensor (name s) (parentName s) (active s) (pose s) (sdf s)
    (parentEntity s) (referencePose s) v (lastMeasurementTime s)
    (linearAcc s) (gravity s) (imuMsg s) (incomingLinkData s) (pub s)
    (requestPub s) (responseSub s) (requestMsg s).

Definition set_lastMeasurementTime (v : Time) (s : ImuSensor) : ImuSensor :=
  mkImuSensor (name s) (parentName s) (active s) (pose s) (sdf s)
    (parentEntity s) (referencePose s) (lastLinearVel s) v (linearAcc s)
    (gravity s) (imuMsg s) (incomingLinkData s) (pub s) (requestPub s)
    (responseSub s) (requestMsg s).

Definition set_linearAcc (v : Vector3) (s : ImuSensor) : ImuSensor :=
  mkImuSensor (name s) (parentName s) (active s) (pose s) (sdf s)
    (parentEntity s) (referencePose s) (lastLinearVel s)
    (lastMeasurementTime s) v (gravity s) (imuMsg s) (incomingLinkData s)
    (pub s) (requestPub s) (responseSub s) (requestMsg s).

Definition set_gravity (v : Vector3) (s : ImuSensor) : ImuSensor :=
  mkImuSensor (name s) (parentName s) (active s) (pose s) (sdf s)
    (parentEntity s) (referencePose s) (lastLinearVel s)
    (lastMeasurementTime s) (linearAcc s) v (imuMsg s) (incomingLinkData s)
    (pub s) (requestPub s) (responseSub s) (requestMsg s).

Definition set_imuMsg (v : IMU) (s : ImuSensor) : ImuSensor :=
  mkImuSensor (name s) (parentName s) (active s) (pose s) (sdf s)
    (parentEntity s) (referencePose s) (lastLinearVel s)
    (lastMeasurementTime s) (linearAcc s) (gravity s) v (incomingLinkData s)
    (pub s) (requestPub s) (responseSub s) (requestMsg s).

Definition set_incomingLinkData (v : list LinkData) (s : ImuSensor) : ImuSensor :=
  mkImuSensor (name s) (parentName s) (active s) (pose s) (sdf s)
    (parentEntity s) (referencePose s) (lastLinearVel s)
    (lastMeasurementTime s) (linearAcc s) (gravity s) (imuMsg s) v (pub s)
    (requestPub s) (responseSub s) (requestMsg s).

Definition set_pub (v : option Publisher) (s : ImuSensor) : ImuSensor :=
  mkImuSensor (name s) (parentName s) (active s) (pose s) (sdf s)
    (parentEntity s) (referencePose s) (lastLinearVel s)
    (lastMeasurementTime s) (linearAcc s) (gravity s) (imuMsg s)
    (incomingLinkData s) v (requestPub s) (responseSub s) (requestMsg s).

Definition set_requestPub (v : option Publisher) (s : ImuSensor) : ImuSensor :=
  mkImuSensor (name s) (parentName s) (active s) (pose s) (sdf s)
    (parentEntity s) (referencePose s) (lastLinearVel s)
    (lastMeasurementTime s) (linearAcc s) (gravity s) (imuMsg s)
    (incomingLinkData s) (pub s) v (responseSub s) (requestMsg s).

Definition set_responseSub (v : option Subscriber) (s : ImuSensor) : ImuSensor :=
  mkImuSensor (name s) (parentName s) (active s) (pose s) (sdf s)
    (parentEntity s) (referencePose s) (lastLinearVel s)
    (lastMeasurementTime s) (linearAcc s) (gravity s) (imuMsg s)
    (incomingLinkData s) (pub s) (requestPub s) v (requestMsg s).

Definition set_requestMsg (v : option Request) (s : ImuSensor) : ImuSensor :=
  mkImuSensor (name s) (parentName s) (active s) (pose s) (sdf s)
    (parentEntity s) (referencePose s) (lastLinearVel s)
    (lastMeasurementTime s) (linearAcc s) (gravity s) (imuMsg s)
    (incomingLinkData s) (pub s) (requestPub s) (responseSub s) v.

(** [Sensor::IsActive] and [Sensor::SetActive], of the base class. *)
Definition IsActive (s : ImuSensor) : bool := active s.

Definition SetActive (v : bool) (s : ImuSensor) : ImuSensor := set_active v s.

Section Members.

(** [Sensor::Load(_worldName)], [Sensor::Load(_worldName, _sdf)] and
    [Sensor::Init] of the base class are not under src/: they are
    parameters, free to change any member and to fail. *)
Variable Sensor_Load : string -> World -> ImuSensor -> Result ImuSensor.
Variable Sensor_Load_sdf :
  string -> sdf_Element -> World -> ImuSensor -> Result ImuSensor.
Variable Sensor_Init : ImuSensor -> Result ImuSensor.

Definition default_topic : string := "__default_topic__".

Definition newline : string := String (ascii_of_nat 10) EmptyString.

(** [ImuSensor::Load(const std::string &_worldName, sdf::ElementPtr _sdf)].
    [id] is the identifier [msgs::CreateRequest] gives the request. *)
Definition Load_sdf (id : Z) (_worldName : string) (_sdf : sdf_Element)
    (w : World) (s : ImuSensor) : Result (ImuSensor * list Packet) :=
  do s <- Sensor_Load_sdf _worldName _sdf w s;
  let custom :=
    match imu (sdf s) with
    | Some e =>
        match topic e with
        | Some t => if String.eqb t default_topic then None else Some t
        | None => None
        end
    | None => None
    end in
  let s :=
    match custom with
    | Some t => set_pub (Some (Advertise t)) s
    | None =>
        let topicName := "~/"%string in
        let topicName :=
          (topicName ++ (parentName s ++ "/" ++ name s ++ "/imu"))%string in
        let topicName := replace_all_colons topicName in
        set_pub (Some (Advertise topicName)) s
    end in
  let s := set_requestPub (Some (Advertise "~/request")) s in
  let s := set_responseSub (Some (Subscribe "~/response" CbOnResponse)) s in
  let s := set_requestMsg (Some (CreateRequest "link_publish" id)) s in
  match requestPub s, requestMsg s with
  | Some p, Some r => Ok (s, [mkPacket p (MsgRequest r)])
  | _, _ => NullDeref
  end.

(** [ImuSensor::Load(const std::string &_worldName)]. *)
Definition Load (_worldName : string) (w : World) (s : ImuSensor)
    : Result ImuSensor :=
  do s <- Sensor_Load _worldName w s;
  let s :=
    set_parentEntity
      (shared_dynamic_cast_Link (GetEntity w (parentName s))) s in
  match parentEntity s with
  | None =>
      Throw ("IMU has invalid paret[" ++ parentName s
             ++ "]. Must be a link" ++ newline)%string
  | Some p =>
      let s :=
        set_referencePose (Pose_add (pose s) (GetWorldPose (deref w p))) s in
      Ok (set_lastLinearVel
            (RotateVector (rot (referencePose s))
                          (GetWorldLinearVel (deref w p))) s)
  end.

(** [ImuSensor::Init]. *)
Definition Init (s : ImuSensor) : Result ImuSensor := Sensor_Init s.

End Members.

(** [ImuSensor::Fini]. *)
Definition Fini (s : ImuSensor) : ImuSensor := s.

(** [ImuSensor::OnResponse]. *)
Definition OnResponse (w : World) (_msg : Response) (s : ImuSensor)
    : Result ImuSensor :=
  match requestMsg s with
  | None => Ok s
  | Some r =>
      if negb (response_id _msg =? request_id r)%Z then Ok s
      else
        match parentEntity s with
        | None => NullDeref
        | Some p =>
            let topic := ("~/" ++ GetScopedName (deref w p))%string in
            let s := set_responseSub (Some (Subscribe topic CbOnLinkData)) s in
            Ok (set_requestMsg None s)
        end
  end.

(** [ImuSensor::OnLinkData]: [push_back], then [pop_front] when the list
    holds more than 100 messages. *)
Definition OnLinkData (_msg : LinkData) (s : ImuSensor) : ImuSensor :=
  if IsActive s then
    let s := set_incomingLinkData (incomingLinkData s ++ [_msg]) s in
    if 100 <? List.length (incomingLinkData s)
    then set_incomingLinkData (tl (incomingLinkData s)) s
    else s
  else s.

(** The [const] accessors: functions of the sensor, with no state to
    return. *)
Definition GetAngularVelocity (s : ImuSensor) : Vector3 :=
  angular_velocity (imuMsg s).

Definition GetLinearAcceleration (s : ImuSensor) : Vector3 :=
  linear_acceleration (imuMsg s).

Definition GetOrientation (s : ImuSensor) : Quaternion :=
  orientation (imuMsg s).

(** [ImuSensor::SetReferencePose]. *)
Definition SetReferencePose (w : World) (s : ImuSensor) : Result ImuSensor :=
  match parentEntity s with
  | None => NullDeref
  | Some p =>
      Ok (set_referencePose (Pose_add (pose s) (GetWorldPose (deref w p))) s)
  end.

(** [ImuSensor::UpdateImpl].  The result is the sensor after the call and
    what was handed to the transport.  The line written to [gzerr] when
    [dt > 0] is a trace and is left out. *)
Definition UpdateImpl (w : World) (_force : bool) (s : ImuSensor)
    : Result (ImuSensor * list Packet) :=
  match parentEntity s with
  | None => NullDeref
  | Some p =>
      let timestamp := Time_default in
      let '(timestamp, imuWorldLinearVel) :=
        GetWorldLinearVelAt (deref w p) timestamp (pos (pose s)) in
      let dt := Time_Double (Time_sub timestamp (lastMeasurementTime s)) in
      let s := set_imuMsg (set_entity_name (parentName s) (imuMsg s)) s in
      let s := set_imuMsg (set_stamp timestamp (imuMsg s)) s in
      let parentEntityPose := GetWorldPose (deref w p) in
      let imuPose := Pose_add (pose s) parentEntityPose in
      let s :=
        set_imuMsg
          (set_orientation
             (qmul (rot imuPose) (GetInverse (rot (referencePose s))))
             (imuMsg s)) s in
      let s :=
        set_imuMsg
          (set_angular_velocity
             (RotateVector (GetInverse (rot imuPose))
                           (GetWorldAngularVel (deref w p)))
             (imuMsg s)) s in
      let s :=
        if dgt dt d0 then
          let s :=
            set_linearAcc
              (RotateVector (GetInverse (rot imuPose))
                 (vdiv (vsub imuWorldLinearVel (lastLinearVel s)) dt)) s in
          let s := set_lastLinearVel imuWorldLinearVel s in
          set_lastMeasurementTime timestamp s
        else s in
      let s := set_gravity (GetGravity w) s in
      let s :=
        set_linearAcc
          (vsub (linearAcc s)
                (RotateVector (GetInverse (rot imuPose)) (gravity s))) s in
      let s :=
        set_imuMsg (set_linear_acceleration (linearAcc s) (imuMsg s)) s in
      match pub s with
      | Some p => Ok (s, [mkPacket p (MsgIMU (imuMsg s))])
      | None => Ok (s, [])
      end
  end.

End Sensor.

(** ** Exact arithmetic *)

(** [double] as the rationals in canonical form, [common::Time] as a
    number of nanoseconds, [Time::Double] as seconds. *)
Definition Exact : Numeric := {|
  double := Qc;
  d0 := 0%Qc;
  d1 := 1%Qc;
  dadd := Qcplus;
  dsub := Qcminus;
  dmul := Qcmult;
  ddiv := Qcdiv;
  dopp := Qcopp;
  dgt := fun a b => match (a ?= b)%Qc with Gt => true | _ => false end;
  Time := Z;
  Time_default := 0%Z;
  Time_sub := Z.sub;
  Time_Double := fun t => (Q2Qc (inject_Z t) / Q2Qc (inject_Z 1000000000))%Qc
|}.

(** ** Runs of the sensor *)

Section Run.
Context {N : Numeric}.

(** The calls the owning framework and the transport make on a loaded
    sensor, each with the world as it is at the time of the call. *)
Inductive Event : Type :=
| EvOnResponse (w : World) (_msg : Response)
| EvOnLinkData (_msg : LinkData)
| EvSetActive (v : bool)
| EvSetReferencePose (w : World)
| EvUpdate (w : World) (_force : bool).

Definition is_update (e : Event) : bool :=
  match e with
  | EvUpdate _ _ => true
  | _ => false
  end.

Definition step (e : Event) (s : ImuSensor)
    : Result (ImuSensor * list Packet) :=
  match e with
  | EvOnResponse w m => do s' <- OnResponse w m s; Ok (s', [])
  | EvOnLinkData m => Ok (OnLinkData m s, [])
  | EvSetActive v => Ok (SetActive v s, [])
  | EvSetReferencePose w => do s' <- SetReferencePose w s; Ok (s', [])
  | EvUpdate w f => UpdateImpl w f s
  end.

Fixpoint run (es : list Event) (s : ImuSensor)
    : Result (ImuSensor * list Packet) :=
  match es with
  | [] => Ok (s, [])
  | e :: es' =>
      do r <- step e s;
      do r' <- run es' (fst r);
      Ok (fst r', snd r ++ snd r')
  end.

Definition is_imu (k : Packet) : bool :=
  match payload k with
  | MsgIMU _ => true
  | MsgRequest _ => false
  end.

(** Link data arriving one after the other, each with the activity of the
    sensor at the time it arrives. *)
Definition deliver (s : ImuSensor) (bm : bool * LinkData) : ImuSensor :=
  OnLinkData (snd bm) (SetActive (fst bm) s).

Definition deliver_all (l : list (bool * LinkData)) (s : ImuSensor)
    : ImuSensor :=
  fold_left deliver l s.

(** The messages of [l] that arrived while the sensor was active. *)
Definition accepted (l : list (bool * LinkData)) : list LinkData :=
  map snd (filter fst l).

End Run.

(** The last [n] elements of a list, in order. *)
Definition lastn {A : Type} (n : nat) (l : list A) : list A :=
  skipn (List.length l - n) l.

(** ** The reading of the spec *)

Section SpecReading.
Context {N : Numeric}.

(** [drain-latest()] of the spec (section 4.2): the most recently pushed
    sample, if any. *)
Definition spec_drain_latest {A : Type} (buffer : list A) : option A :=
  match rev buffer with
  | k :: _ => Some k
  | [] => None
  end.

(** The reading as the spec derives it from the most recent sample [k] of
    the buffer (sections 2 and 4.5 of the spec), for comparison with what
    [UpdateImpl] assembles. *)
Definition spec_reading_of_sample (s : ImuSensor) (g : Vector3)
    (k : LinkData) : IMU :=
  let imuPose := Pose_add (pose s) (worldPose k) in
  let dt := Time_Double (Time_sub (timestamp k) (lastMeasurementTime s)) in
  let rawAccel :=
    if dgt dt d0
    then RotateVector (GetInverse (rot imuPose))
           (vdiv (vsub (worldLinearVelocity k) (lastLinearVel s)) dt)
    else linearAcc s in
  mkIMU (parentName s) (timestamp k)
        (qmul (rot imuPose) (GetInverse (rot (referencePose s))))
        (RotateVector (GetInverse (rot imuPose)) (worldAngularVelocity k))
        (vsub rawAccel (RotateVector (GetInverse (rot imuPose)) g)).

End SpecReading.

(** ** Binary64 arithmetic *)

(** The value of a number of nanoseconds as a binary64 number, exact below
    2^53. *)
Fixpoint float_of_pos (p : positive) : float :=
  match p with
  | xH => 1%float
  | xO q => PrimFloat.mul 2%float (float_of_pos q)
  | xI q => PrimFloat.add (PrimFloat.mul 2%float (float_of_pos q)) 1%float
  end.

Definition float_of_Z (z : Z) : float :=
  match z with
  | Z0 => 0%float
  | Zpos p => float_of_pos p
  | Zneg p => PrimFloat.opp (float_of_pos p)
  end.

(** [Time::Double] of a time of [t] nanoseconds, held as [sec] whole
    seconds and [nsec] nanoseconds of the same sign: [sec + nsec * 1e-9],
    with 1e-9 to the nearest binary64 number. *)
Definition Double_binary64 (t : Z) : float :=
  PrimFloat.add (float_of_Z (Z.quot t 1000000000))
    (PrimFloat.mul (float_of_Z (Z.rem t 1000000000))
                   0x1.12e0be826d695p-30%float).

(** [double] as the binary64 numbers with their rounded operations,
    [common::Time] as a number of nanoseconds. *)
Definition Binary64 : Numeric := {|
  double := float;
  d0 := 0%float;
  d1 := 1%float;
  dadd := PrimFloat.add;
  dsub := PrimFloat.sub;
  dmul := PrimFloat.mul;
  ddiv := PrimFloat.div;
  dopp := PrimFloat.opp;
  dgt := fun a b => PrimFloat.ltb b a;
  Time := Z;
  Time_default := 0%Z;
  Time_sub := Z.sub;
  Time_Double := Double_binary64
|}.

(** ** What a tick reads from the world *)

Section Tick.
Context {N : Numeric}.

(** The pose of the sensor in the world, [this->pose + parentEntityPose]. *)
Definition imuPose_at (w : World) (p : LinkPtr) (s : ImuSensor) : Pose :=
  Pose_add (pose s) (GetWorldPose (deref w p)).

(** The time and the velocity [GetWorldLinearVel(timestamp, pose.pos)]
    leaves the tick with. *)
Definition sample_at (w : World) (p : LinkPtr) (s : ImuSensor)
    : Time * Vector3 :=
  GetWorldLinearVelAt (deref w p) Time_default (pos (pose s)).

(** [dt] of the tick. *)
Definition dt_at (w : World) (p : LinkPtr) (s : ImuSensor) : double :=
  Time_Double (Time_sub (fst (sample_at w p s)) (lastMeasurementTime s)).

(** Rotation of a world vector into the frame of the sensor. *)
Definition into_body (w : World) (p : LinkPtr) (s : ImuSensor)
    (v : Vector3) : Vector3 :=
  RotateVector (GetInverse (rot (imuPose_at w p s))) v.

End Tick.

(** ** Concrete sensors and worlds, over exact arithmetic *)

Module Scenario.

Definition qc (n d : Z) : Qc :=
  (Q2Qc (inject_Z n) / Q2Qc (inject_Z d))%Qc.

(** One second, in nanoseconds. *)
Definition second : Z := 1000000000.

Definition vec (a b c : Qc) : @Vector3 Exact := @mkVector3 Exact a b c.

Arguments vec (a b c)%_Qc.

Definition quat (a b c d : Qc) : @Quaternion Exact :=
  @mkQuaternion Exact a b c d.

Arguments quat (a b c d)%_Qc.

Definition origin : @Pose Exact :=
  @mkPose Exact (vec 0 0 0) (quat 1 0 0 0).

(** Gravity of the spec's scenario, (0, 0, -9.8). *)
Definition g98 : @Vector3 Exact := vec 0 0 (qc (-49) 5).

(** A link with orientation [q], linear velocity [v] at every point and
    angular velocity [a], which hands the time [t] to the caller. *)
Definition link (q : @Quaternion Exact) (v a : @Vector3 Exact) (t : Z)
    : @Link Exact :=
  @mkLink Exact "model::link" (@mkPose Exact (vec 0 0 0) q) v
          (fun _ _ => (t, v)) a.

(** A world with the link [l] under the name "model::link", under pointer
    0, and a model under the name "model". *)
Definition world (l : @Link Exact) (g : @Vector3 Exact) : @World Exact :=
  @mkWorld Exact
    (fun n => if String.eqb n "model::link" then Some (EntityLink 0)
              else if String.eqb n "model" then Some EntityOther
              else None)
    (fun _ => l) g.

(** A sensor as its constructor leaves it: pointers null, list empty,
    vectors and times zero; mounted at the origin of its parent. *)
Definition fresh (parent : string) : @ImuSensor Exact :=
  @mkImuSensor Exact "imu_sensor" parent true origin (mk_sdf_Element None)
    None origin (vec 0 0 0) 0%Z (vec 0 0 0) (vec 0 0 0)
    (@mkIMU Exact "" 0%Z (quat 0 0 0 0) (vec 0 0 0) (vec 0 0 0))
    [] None None None None.

(** The base class as a bystander: it stores the description and changes
    nothing else. *)
Definition base_Load (_ : string) (_ : @World Exact) (s : @ImuSensor Exact)
    : Result (@ImuSensor Exact) := Ok s.

Definition base_Load_sdf (_ : string) (d : sdf_Element) (_ : @World Exact)
    (s : @ImuSensor Exact) : Result (@ImuSensor Exact) :=
  Ok (@mkImuSensor Exact (name s) (parentName s) (active s) (pose s) d
        (parentEntity s) (referencePose s) (lastLinearVel s)
        (lastMeasurementTime s) (linearAcc s) (gravity s) (imuMsg s)
        (incomingLinkData s) (pub s) (requestPub s) (responseSub s)
        (requestMsg s)).

(** A sensor whose parent is resolved to the link of [world], and this
    sensor when it publishes on "~/imu". *)
Definition resolved : @ImuSensor Exact :=
  set_parentEntity (Some 0) (fresh "model::link").

Definition loaded : @ImuSensor Exact :=
  set_pub (Some (Advertise "~/imu")) resolved.

(** A sample that reports the angular velocity (1, 0, 0), and the loaded
    sensor with this sample in its buffer. *)
Definition sample_k : @LinkData Exact :=
  @mkLinkData Exact second origin (vec 0 0 0) (vec 1 0 0).

Definition buffered : @ImuSensor Exact :=
  set_incomingLinkData [sample_k] loaded.

(** The sensor after one tick in [w], if the tick returns. *)
Definition tick (w : @World Exact) (s : @ImuSensor Exact)
    : option (@ImuSensor Exact) :=
  match UpdateImpl w false s with
  | Ok (s', _) => Some s'
  | _ => None
  end.

(** A body at rest, aligned with the world, under gravity (0, 0, -9.8),
    at the time of [t] nanoseconds. *)
Definition rest (t : Z) : @World Exact :=
  world (link (quat 1 0 0 0) (vec 0 0 0) (vec 0 0 0) t) g98.

(** The sensor after [Load(_worldName)] in [w], if it returns. *)
Definition load (w : @World Exact) (s : @ImuSensor Exact)
    : option (@ImuSensor Exact) :=
  match Load base_Load "default" w s with
  | Ok s' => Some s'
  | _ => None
  end.

(** The loaded sensor while its request 7 is outstanding, and responses
    to it and to another request. *)
Definition awaiting : @ImuSensor Exact :=
  set_responseSub (Some (Subscribe "~/response" CbOnResponse))
    (set_requestMsg (Some (CreateRequest "link_publish" 7)) loaded).

Definition response7 : Response := mkResponse 7.

Definition response8 : Response := mkResponse 8.

(** The loaded sensor of a body that moved at (1, 0, 0) when its velocity
    was last stored. *)
Definition braked : @ImuSensor Exact :=
  set_lastLinearVel (vec 1 0 0) loaded.

(** A body at rest with the unit orientation (3/5, 4/5, 0, 0). *)
Definition tilted (t : Z) : @World Exact :=
  world (link (quat (qc 3 5) (qc 4 5) 0 0) (vec 0 0 0) (vec 0 0 0) t) g98.

(** A body turned by half a turn about the vertical axis, moving at
    (1, 0, 0) in the world, with no gravity, at the time of [t]
    nanoseconds. *)
Definition moving_turned (t : Z) : @World Exact :=
  world (link (quat 0 0 0 1) (vec 1 0 0) (vec 0 0 0) t) (vec 0 0 0).

End Scenario.

(** ** The body at rest, over binary64 arithmetic *)

Module Scenario64.

Definition vec (a b c : float) : @Vector3 Binary64 :=
  @mkVector3 Binary64 a b c.

Arguments vec (a b c)%_float.

Definition quat (a b c d : float) : @Quaternion Binary64 :=
  @mkQuaternion Binary64 a b c d.

Arguments quat (a b c d)%_float.

Definition origin : @Pose Binary64 :=
  @mkPose Binary64 (vec 0 0 0) (quat 1 0 0 0).

(** 9.8, to the nearest binary64 number. *)
Definition nine_point_eight : float := 0x1.399999999999ap+3%float.

(** 19.6, to the nearest binary64 number. *)
Definition nineteen_point_six : float := 0x1.399999999999ap+4%float.

(** A body at rest, aligned with the world, under gravity (0, 0, -9.8),
    at the time of [t] nanoseconds. *)
Definition rest (t : Z) : @World Binary64 :=
  @mkWorld Binary64
    (fun n => if String.eqb n "model::link" then Some (EntityLink 0)
              else None)
    (fun _ => @mkLink Binary64 "model::link" origin (vec 0 0 0)
                (fun _ _ => (t, vec 0 0 0)) (vec 0 0 0))
    (vec 0 0 (PrimFloat.opp nine_point_eight)).

(** A sensor loaded on the link, as [Scenario.loaded]. *)
Definition loaded : @ImuSensor Binary64 :=
  @mkImuSensor Binary64 "imu_sensor" "model::link" true origin
    (mk_sdf_Element None) (Some 0%nat) origin (vec 0 0 0) 0%Z (vec 0 0 0)
    (vec 0 0 0)
    (@mkIMU Binary64 "" 0%Z (quat 0 0 0 0) (vec 0 0 0)
            (vec 0 0 0))
    [] (Some (Advertise "~/imu")) None None None.

Definition tick (w : @World Binary64) (s : @ImuSensor Binary64)
    : option (@ImuSensor Binary64) :=
  match UpdateImpl w false s with
  | Ok (s', _) => Some s'
  | _ => None
  end.

End Scenario64.

(** ** A turned body, over binary64 arithmetic *)

Module Tilt64.

(** The cosine of 30 degrees, to the nearest binary64 number. *)
Definition cos30 : float := 0x1.bb67ae8584caap-1%float.

(** The rotation by 60 degrees about the x axis. *)
Definition q60 : @Quaternion Binary64 := Scenario64.quat cos30 0.5 0 0.

(** A body at rest with the orientation [q60], with no gravity. *)
Definition world : @World Binary64 :=
  @mkWorld Binary64
    (fun n => if String.eqb n "model::link" then Some (EntityLink 0%nat)
              else None)
    (fun _ => @mkLink Binary64 "model::link"
                (@mkPose Binary64 (Scenario64.vec 0 0 0) q60)
                (Scenario64.vec 0 0 0)
                (fun _ _ => (0%Z, Scenario64.vec 0 0 0))
                (Scenario64.vec 0 0 0))
    (Scenario64.vec 0 0 0).

End Tilt64.

(** ** Observers for the further properties *)

(** Whether two colons follow one another somewhere in [s]. *)
Fixpoint has_double_colon (s : string) : bool :=
  match s with
  | EmptyString => false
  | String c r =>
      match r with
      | String c' _ =>
          (Ascii.eqb c ":" && Ascii.eqb c' ":") || has_double_colon r
      | EmptyString => false
      end
  end.

(** Whether [s] starts with "~/", the prefix of a topic in the name space
    of the node. *)
Definition starts_with_tilde_slash (s : string) : bool :=
  match s with
  | String a (String b _) => Ascii.eqb a "~" && Ascii.eqb b "/"
  | _ => false
  end.

Definition starts_with_colon (s : string) : bool :=
  match s with
  | EmptyString => false
  | String c _ => Ascii.eqb c ":"
  end.

Section RunObservers.
Context {N : Numeric}.

(** The topic of the default branch of [Load], from the members the base
    class left. *)
Definition default_imu_topic (s : ImuSensor) : string :=
  replace_all_colons
    ("~/" ++ (parentName s ++ "/" ++ name s ++ "/imu"))%string.

(** What configures the sensor: its names, its mount, its description,
    its parent and its publishers. *)
Definition configuration (s : ImuSensor)
    : string * string * Pose * sdf_Element * option LinkPtr
      * option Publisher * option Publisher :=
  (name s, parentName s, pose s, sdf s, parentEntity s, pub s, requestPub s).

Definition is_rezero (e : Event) : bool :=
  match e with
  | EvSetReferencePose _ => true
  | _ => false
  end.

(** The link data of a run that arrives while the sensor is active, when
    the sensor is active or not, as [a] says, at the start. *)
Fixpoint accepted_in_run (es : list Event) (a : bool) : list LinkData :=
  match es with
  | [] => []
  | EvSetActive v :: es' => accepted_in_run es' v
  | EvOnLinkData m :: es' =>
      if a then m :: accepted_in_run es' a else accepted_in_run es' a
  | _ :: es' => accepted_in_run es' a
  end.

(** [n] ticks in the same world. *)
Definition ticks (n : nat) (w : World) (f : bool) : list Event :=
  repeat (EvUpdate w f) n.

(** The sensor with the request [r] cleared and [OnLinkData] subscribed to
    the topic of the link [p]: what a matching response leaves. *)
Definition subscribed (w : World) (p : LinkPtr) (s : ImuSensor)
    : ImuSensor :=
  set_requestMsg None
    (set_responseSub
       (Some (Subscribe ("~/" ++ GetScopedName (deref w p))%string
                        CbOnLinkData)) s).

End RunObservers.

Module Cruise.

(** A body aligned with the world that moves at (1, 0, 0), under gravity
    (0, 0, -9.8), at the time of [t] nanoseconds. *)
Definition world (t : Z) : @World Exact :=
  Scenario.world
    (Scenario.link (Scenario.quat 1 0 0 0) (Scenario.vec 1 0 0)
                   (Scenario.vec 0 0 0) t)
    Scenario.g98.

(** A description with the topic [t] in its [imu] element. *)
Definition described (t : string) : sdf_Element :=
  mk_sdf_Element (Some (mk_sdf_ImuElement (Some t))).

End Cruise.

(** * Properties *)

#[local] Arguments qmul : simpl never.
#[local] Arguments GetInverse : simpl never.
#[local] Arguments RotateVector : simpl never.
#[local] Arguments Pose_add : simpl never.
#[local] Arguments vsub : simpl never.
#[local] Arguments vdiv : simpl never.
#[local] Arguments vadd : simpl never.

(** ** One tick, for any arithmetic *)

Ltac open_tick H p t v :=
  unfold UpdateImpl in H;
  destruct (parentEntity _) as [p|] eqn:?; [|discriminate H];
  destruct (GetWorldLinearVelAt _ _ _) as [t v] eqn:?;
  cbn beta iota zeta in H.

Section TickFacts.
Context {N : Numeric}.

(** A tick returns exactly when the parent pointer is not null. *)
Lemma UpdateImpl_returns (w : World) (f : bool) (s : ImuSensor) :
  (exists s' out, UpdateImpl w f s = Ok (s', out)) <->
  parentEntity s <> None.
Proof.
  unfold UpdateImpl. destruct (parentEntity s) as [p|].
  - split; [discriminate|intros _].
    destruct (GetWorldLinearVelAt _ _ _) as [t v].
    cbn beta iota zeta.
    match goal with |- context [match ?c with Some _ => _ | None => _ end] =>
      destruct c end; eauto.
  - split; [intros (s' & out & H); discriminate H|congruence].
Qed.

(** The members a tick leaves alone. *)
Lemma UpdateImpl_frame (w : World) (f : bool) (s s' : ImuSensor)
    (out : list Packet) :
  UpdateImpl w f s = Ok (s', out) ->
  name s' = name s /\ parentName s' = parentName s /\
  active s' = active s /\ pose s' = pose s /\ sdf s' = sdf s /\
  parentEntity s' = parentEntity s /\ referencePose s' = referencePose s /\
  incomingLinkData s' = incomingLinkData s /\ pub s' = pub s /\
  requestPub s' = requestPub s /\ responseSub s' = responseSub s /\
  requestMsg s' = requestMsg s.
Proof.
  intros H. open_tick H p t v.
  destruct (dgt _ _); cbn in H; destruct (pub s) eqn:?;
    inversion H; subst; cbn; repeat split; reflexivity || congruence.
Qed.

(** The differentiator state and the reading after a tick. *)
Lemma UpdateImpl_reading (w : World) (f : bool) (s s' : ImuSensor)
    (out : list Packet) :
  UpdateImpl w f s = Ok (s', out) ->
  exists p, parentEntity s = Some p /\
    let t := fst (sample_at w p s) in
    let v := snd (sample_at w p s) in
    let moved := dgt (dt_at w p s) d0 in
    lastLinearVel s' = (if moved then v else lastLinearVel s) /\
    lastMeasurementTime s' = (if moved then t else lastMeasurementTime s) /\
    linearAcc s' =
      vsub (if moved
            then into_body w p s
                   (vdiv (vsub v (lastLinearVel s)) (dt_at w p s))
            else linearAcc s)
           (into_body w p s (GetGravity w)) /\
    gravity s' = GetGravity w /\
    imuMsg s' =
      mkIMU (parentName s) t
        (qmul (rot (imuPose_at w p s)) (GetInverse (rot (referencePose s))))
        (into_body w p s (GetWorldAngularVel (deref w p)))
        (linearAcc s') /\
    out = match pub s with
          | Some q => [mkPacket q (MsgIMU (imuMsg s'))]
          | None => []
          end.
Proof.
  intros H. open_tick H p t v. exists p. split; [reflexivity|].
  unfold dt_at, into_body, imuPose_at, sample_at.
  match goal with E : GetWorldLinearVelAt _ _ _ = _ |- _ => rewrite E end.
  cbn [fst snd].
  destruct (dgt _ _); cbn in H; destruct (pub s) eqn:?;
    inversion H; subst; cbn; repeat split; reflexivity || congruence.
Qed.

End TickFacts.

Section Differentiator.
Context {N : Numeric}.

(** A tick with [dt > 0] differentiates the velocity and moves the
    differentiator state to the sample it used. *)
Lemma UpdateImpl_differentiates (w : World) (f : bool) (s s' : ImuSensor)
    (out : list Packet) (p : LinkPtr) :
  UpdateImpl w f s = Ok (s', out) ->
  parentEntity s = Some p ->
  dgt (dt_at w p s) d0 = true ->
  linearAcc s' =
    vsub (into_body w p s
            (vdiv (vsub (snd (sample_at w p s)) (lastLinearVel s))
                  (dt_at w p s)))
         (into_body w p s (GetGravity w)) /\
  GetLinearAcceleration s' = linearAcc s' /\
  lastLinearVel s' = snd (sample_at w p s) /\
  lastMeasurementTime s' = fst (sample_at w p s).
Proof.
  intros H Hp Hdt.
  destruct (UpdateImpl_reading _ _ _ H) as (p' & Hp' & Hv & Ht & Ha & _ & Hm & _).
  assert (p' = p) by congruence. subst p'.
  rewrite Hdt in Hv, Ht, Ha. unfold GetLinearAcceleration. rewrite Hm.
  repeat split; assumption || reflexivity.
Qed.

(** A tick with [dt <= 0] keeps the differentiator state; the gravity term
    is subtracted from the acceleration the sensor already held. *)
Lemma UpdateImpl_idle (w : World) (f : bool) (s s' : ImuSensor)
    (out : list Packet) (p : LinkPtr) :
  UpdateImpl w f s = Ok (s', out) ->
  parentEntity s = Some p ->
  dgt (dt_at w p s) d0 = false ->
  lastLinearVel s' = lastLinearVel s /\
  lastMeasurementTime s' = lastMeasurementTime s /\
  linearAcc s' = vsub (linearAcc s) (into_body w p s (GetGravity w)) /\
  GetLinearAcceleration s' = linearAcc s'.
Proof.
  intros H Hp Hdt.
  destruct (UpdateImpl_reading _ _ _ H) as (p' & Hp' & Hv & Ht & Ha & _ & Hm & _).
  assert (p' = p) by congruence. subst p'.
  rewrite Hdt in Hv, Ht, Ha. unfold GetLinearAcceleration. rewrite Hm.
  repeat split; assumption || reflexivity.
Qed.

Lemma Vector3_ext (a b : Vector3) :
  vx a = vx b -> vy a = vy b -> vz a = vz b -> a = b.
Proof. destruct a, b; cbn; intros; subst; reflexivity. Qed.

Lemma Quaternion_ext (a b : Quaternion) :
  qw a = qw b -> qx a = qx b -> qy a = qy b -> qz a = qz b -> a = b.
Proof. destruct a, b; cbn; intros; subst; reflexivity. Qed.

End Differentiator.

(** Equality of two closed rationals, vectors and quaternions of [Exact],
    by evaluation. *)
Ltac qc_eq :=
  change (@double Exact) with Qc;
  apply Qc_is_canon; vm_compute; reflexivity.

Ltac vec_eq := apply (@Vector3_ext Exact); qc_eq.

Ltac quat_eq := apply (@Quaternion_ext Exact); qc_eq.

Ltac vec_neq :=
  let E := fresh in
  intro E;
  (apply (f_equal (fun v => this (@vx Exact v))) in E;
     vm_compute in E; discriminate E)
  || (apply (f_equal (fun v => this (@vy Exact v))) in E;
        vm_compute in E; discriminate E)
  || (apply (f_equal (fun v => this (@vz Exact v))) in E;
        vm_compute in E; discriminate E).

(** Provide the sensor an evaluation returns. *)
Ltac provide e :=
  let r := eval vm_compute in e in
  match r with
  | Some ?s1 => let s := fresh "s" in pose (s := s1); exists s
  | Ok (?s1, ?o1) =>
      let s := fresh "s" in
      let o := fresh "o" in
      pose (s := s1); pose (o := o1); exists s, o
  | Ok ?s1 => let s := fresh "s" in pose (s := s1); exists s
  end.

(** ** C1: a tick with [dt <= 0] *)

(** C1.  The spec asks that a tick with [dt <= 0] leaves [lastLinearVel],
    [lastMeasurementTime] and the reported linear acceleration as the prior
    tick left them.  The code keeps the first two ([UpdateImpl_idle]) but
    subtracts the body-frame gravity from [linearAcc] once more: for a body
    at rest under gravity (0, 0, -9.8), a tick at one second, with
    [dt = 1], reports (0, 0, 9.8), and a second tick at the same time, with
    [dt = 0], reports (0, 0, 19.6). *)
Theorem C1_idle_tick_subtracts_gravity_again :
  let w := Scenario.rest Scenario.second in
  exists s1 s2 : @ImuSensor Exact,
    Scenario.tick w Scenario.loaded = Some s1 /\
    Scenario.tick w s1 = Some s2 /\
    @dgt Exact (dt_at w 0 Scenario.loaded) d0 = true /\
    @dgt Exact (dt_at w 0 s1) d0 = false /\
    lastLinearVel s2 = lastLinearVel s1 /\
    lastMeasurementTime s2 = lastMeasurementTime s1 /\
    GetLinearAcceleration s1 = Scenario.vec 0 0 (Scenario.qc 49 5) /\
    GetLinearAcceleration s2 = Scenario.vec 0 0 (Scenario.qc 98 5) /\
    GetLinearAcceleration s2 <> GetLinearAcceleration s1.
Proof.
  intros w.
  provide (Scenario.tick w Scenario.loaded). provide (Scenario.tick w s).
  repeat split; try (reflexivity || vec_eq). vec_neq.
Qed.

(** The same two ticks in binary64 arithmetic: 9.8, then 19.6. *)
Lemma idle_tick_binary64 :
  let w := Scenario64.rest Scenario.second in
  exists s1 s2 : @ImuSensor Binary64,
    Scenario64.tick w Scenario64.loaded = Some s1 /\
    Scenario64.tick w s1 = Some s2 /\
    @dgt Binary64 (dt_at w 0 Scenario64.loaded) d0 = true /\
    @dgt Binary64 (dt_at w 0 s1) d0 = false /\
    vz (GetLinearAcceleration s1) = Scenario64.nine_point_eight /\
    vz (GetLinearAcceleration s2) = Scenario64.nineteen_point_six.
Proof.
  intros w.
  provide (Scenario64.tick w Scenario64.loaded).
  provide (Scenario64.tick w s).
  repeat split; reflexivity.
Qed.

(** ** C2: a tick with [dt > 0] *)

(** C2.  A tick with [dt > 0] does what the spec says
    ([UpdateImpl_differentiates]), and only such a tick moves the two
    fields ([UpdateImpl_idle]); but [lastLinearVel] is not always the
    velocity in the world frame: [Load] stores the velocity of the parent
    rotated by the reference orientation.  For a body turned by half a turn
    about the vertical axis and moving at (1, 0, 0), [Load] stores
    (-1, 0, 0), and the first tick, one second later at the same velocity,
    reports the acceleration (-2, 0, 0) instead of zero. *)
Theorem C2_Load_stores_rotated_velocity :
  let w := Scenario.moving_turned Scenario.second in
  exists s1 s2 : @ImuSensor Exact,
    Scenario.load w (Scenario.fresh "model::link") = Some s1 /\
    parentEntity s1 = Some 0 /\
    GetWorldLinearVel (deref w 0) = Scenario.vec 1 0 0 /\
    snd (sample_at w 0 s1) = Scenario.vec 1 0 0 /\
    lastLinearVel s1 = Scenario.vec (Scenario.qc (-1) 1) 0 0 /\
    Scenario.tick w s1 = Some s2 /\
    @dgt Exact (dt_at w 0 s1) d0 = true /\
    GetLinearAcceleration s2 = Scenario.vec (Scenario.qc (-2) 1) 0 0 /\
    lastLinearVel s2 = Scenario.vec 1 0 0.
Proof.
  intros w.
  provide (Scenario.load w (Scenario.fresh "model::link")).
  provide (Scenario.tick w s).
  repeat split; reflexivity || vec_eq.
Qed.

(** ** C3: where a tick takes its reading from *)

Section Buffer.
Context {N : Numeric}.

(** The buffer is not an input of a tick: with another buffer the tick
    returns the same sensor, but for the buffer, and the same packets. *)
Lemma UpdateImpl_ignores_buffer (w : World) (f : bool) (s s' : ImuSensor)
    (out : list Packet) (b : list LinkData) :
  UpdateImpl w f s = Ok (s', out) ->
  UpdateImpl w f (set_incomingLinkData b s)
  = Ok (set_incomingLinkData b s', out).
Proof.
  intros H. open_tick H p t v.
  unfold UpdateImpl. cbn [parentEntity set_incomingLinkData].
  match goal with E : parentEntity s = _ |- _ => rewrite E end.
  cbn [pose set_incomingLinkData].
  match goal with E : GetWorldLinearVelAt _ _ _ = _ |- _ => rewrite E end.
  cbn beta iota zeta.
  cbn [lastMeasurementTime set_incomingLinkData].
  destruct (dgt _ _); cbn in H |- *; destruct (pub s) eqn:?;
    inversion H; subst; cbn; reflexivity.
Qed.

End Buffer.

(** C3, as stated, fails.  With the sample [sample_k] in the buffer, which
    reports the angular velocity (1, 0, 0), and a parent at rest, the tick
    returns a reading that is not the one of the sample, and the sample is
    still in the buffer afterwards. *)
Lemma C3_counterexample_buffer_not_read :
  let w := Scenario.rest Scenario.second in
  exists (s' : @ImuSensor Exact) (out : list (@Packet Exact)),
    UpdateImpl w false Scenario.buffered = Ok (s', out) /\
    spec_drain_latest (incomingLinkData Scenario.buffered)
    = Some Scenario.sample_k /\
    imuMsg s' <>
    spec_reading_of_sample Scenario.buffered (GetGravity w)
                           Scenario.sample_k /\
    incomingLinkData s' = [Scenario.sample_k].
Proof.
  intros w. provide (UpdateImpl w false Scenario.buffered).
  split; [reflexivity|]. split; [reflexivity|]. split; [|reflexivity].
  intros E. apply (f_equal (@angular_velocity Exact)) in E. revert E. vec_neq.
Qed.

(** C3, amended.  A tick neither reads nor changes the link-data buffer.
    It assembles the reading from the state of the parent link it queries
    in the world: the orientation relative to the reference, the angular
    velocity in the body frame, the differentiated acceleration less the
    gravity in the body frame; and what it publishes, last, is this
    reading. *)
Theorem C3_update_reads_the_parent_not_the_buffer
    (N : Numeric) (w : World) (f : bool) (s s' : ImuSensor)
    (out : list Packet) :
  UpdateImpl w f s = Ok (s', out) ->
  incomingLinkData s' = incomingLinkData s /\
  (forall b : list LinkData,
     UpdateImpl w f (set_incomingLinkData b s)
     = Ok (set_incomingLinkData b s', out)) /\
  exists p, parentEntity s = Some p /\
    imuMsg s' =
      mkIMU (parentName s) (fst (sample_at w p s))
        (qmul (rot (imuPose_at w p s)) (GetInverse (rot (referencePose s))))
        (into_body w p s (GetWorldAngularVel (deref w p)))
        (vsub (if dgt (dt_at w p s) d0
               then into_body w p s
                      (vdiv (vsub (snd (sample_at w p s)) (lastLinearVel s))
                            (dt_at w p s))
               else linearAcc s)
              (into_body w p s (GetGravity w))) /\
    out = match pub s with
          | Some q => [mkPacket q (MsgIMU (imuMsg s'))]
          | None => []
          end.
Proof.
  intros H. split; [apply (UpdateImpl_frame _ _ _ H)|].
  split; [intros b; apply UpdateImpl_ignores_buffer; exact H|].
  destruct (UpdateImpl_reading _ _ _ H) as (p & Hp & _ & _ & Ha & _ & Hm & Ho).
  exists p. rewrite <- Ha. auto.
Qed.

(** The tick of the counterexample: the sample is still in the buffer. *)
Lemma C3_update_reads_the_parent_not_the_buffer_witness :
  let w := Scenario.rest Scenario.second in
  exists (s' : @ImuSensor Exact) (out : list (@Packet Exact)),
    UpdateImpl w false Scenario.buffered = Ok (s', out) /\
    incomingLinkData s' = incomingLinkData Scenario.buffered.
Proof.
  intros w. provide (UpdateImpl w false Scenario.buffered).
  assert (H : UpdateImpl w false Scenario.buffered = Ok (s, o))
    by reflexivity.
  exact (conj H (proj1 (C3_update_reads_the_parent_not_the_buffer _ _ _ H))).
Defined.

(** ** C4: the link-data buffer *)

Section LastN.
Variable A : Type.
Implicit Types (l a b : list A) (n : nat).

Lemma lastn_all n l : List.length l <= n -> lastn n l = l.
Proof.
  intros H. unfold lastn.
  replace (List.length l - n) with 0 by lia. reflexivity.
Qed.

Lemma lastn_length n l : List.length (lastn n l) = Nat.min n (List.length l).
Proof. unfold lastn. rewrite length_skipn. lia. Qed.

Lemma lastn_app_r n a b :
  n <= List.length b -> lastn n (a ++ b) = lastn n b.
Proof.
  intros H. unfold lastn. rewrite length_app, skipn_app.
  replace (List.length a + List.length b - n - List.length a)
    with (List.length b - n) by lia.
  rewrite skipn_all2 by lia. reflexivity.
Qed.

Lemma lastn_lastn_app n a b : lastn n (lastn n a ++ b) = lastn n (a ++ b).
Proof.
  destruct (Nat.le_gt_cases (List.length a) n) as [H|H].
  - rewrite (lastn_all a H). reflexivity.
  - rewrite <- (firstn_skipn (List.length a - n) a) at 2.
    fold (lastn n a). rewrite <- app_assoc.
    symmetry. apply lastn_app_r.
    rewrite length_app, lastn_length. lia.
Qed.

Lemma tl_skipn l : tl l = skipn 1 l.
Proof. destruct l; reflexivity. Qed.

End LastN.

Section BufferFacts.
Context {N : Numeric}.

Lemma OnLinkData_inactive (m : LinkData) (s : ImuSensor) :
  IsActive s = false -> OnLinkData m s = s.
Proof. intros H. unfold OnLinkData. rewrite H. reflexivity. Qed.

(** An accepted message is appended, and the oldest leaves when the list
    has grown beyond 100. *)
Lemma OnLinkData_active (m : LinkData) (s : ImuSensor) :
  IsActive s = true ->
  incomingLinkData (OnLinkData m s) =
  (if 100 <? List.length (incomingLinkData s ++ [m])
   then tl (incomingLinkData s ++ [m])
   else incomingLinkData s ++ [m]).
Proof.
  intros H. unfold OnLinkData. rewrite H.
  cbn [incomingLinkData set_incomingLinkData].
  destruct (100 <? _); reflexivity.
Qed.

Lemma OnLinkData_lastn (m : LinkData) (s : ImuSensor) :
  IsActive s = true ->
  List.length (incomingLinkData s) <= 100 ->
  incomingLinkData (OnLinkData m s) = lastn 100 (incomingLinkData s ++ [m]).
Proof.
  intros Ha Hl. rewrite (OnLinkData_active m s Ha).
  destruct (Nat.ltb_spec 100 (List.length (incomingLinkData s ++ [m])))
    as [H|H].
  - rewrite tl_skipn. unfold lastn. f_equal.
    rewrite length_app in *. cbn [List.length] in *. lia.
  - symmetry. apply lastn_all. exact H.
Qed.

Lemma deliver_buffer (s : ImuSensor) (bm : bool * LinkData) :
  List.length (incomingLinkData s) <= 100 ->
  incomingLinkData (deliver s bm) =
  lastn 100 (incomingLinkData s ++ accepted [bm]).
Proof.
  intros Hl. destruct bm as [[|] m]; unfold deliver, accepted; cbn [fst snd filter map].
  - apply (OnLinkData_lastn m (SetActive true s)); [reflexivity|exact Hl].
  - rewrite OnLinkData_inactive by reflexivity.
    cbn [incomingLinkData SetActive set_active].
    rewrite app_nil_r. symmetry. apply lastn_all. exact Hl.
Qed.

End BufferFacts.

(** C4.  A push while the sensor is inactive changes nothing.  A push while
    it is active appends the sample, and drops the oldest one when the
    buffer already held 100.  After any sequence of pushes into a buffer
    of at most 100 samples (the empty buffer of a new sensor, say) the
    buffer holds at most 100 samples: the last 100, in the order of their
    arrival, of what it held followed by what arrived while the sensor was
    active. *)
Theorem C4_buffer_keeps_the_last_100 (N : Numeric) :
  (forall (m : LinkData) (s : ImuSensor),
     IsActive s = false -> OnLinkData m s = s) /\
  (forall (m : LinkData) (s : ImuSensor),
     IsActive s = true ->
     List.length (incomingLinkData s) <= 100 ->
     incomingLinkData (OnLinkData m s) =
     (if List.length (incomingLinkData s) <? 100
      then incomingLinkData s ++ [m]
      else tl (incomingLinkData s) ++ [m])) /\
  (forall (l : list (bool * LinkData)) (s : ImuSensor),
     List.length (incomingLinkData s) <= 100 ->
     List.length (incomingLinkData (deliver_all l s)) <= 100 /\
     incomingLinkData (deliver_all l s) =
     lastn 100 (incomingLinkData s ++ accepted l)).
Proof.
  split; [exact OnLinkData_inactive|]. split.
  - intros m s Ha Hl. rewrite (OnLinkData_active m s Ha).
    rewrite length_app. cbn [List.length].
    destruct (Nat.ltb_spec (List.length (incomingLinkData s)) 100) as [H|H];
      destruct (Nat.ltb_spec 100 (List.length (incomingLinkData s) + 1));
      try lia; try reflexivity.
    destruct (incomingLinkData s); [cbn in H; lia|reflexivity].
  - intros l. induction l as [|bm l IH]; intros s Hl.
    + cbn [deliver_all fold_left accepted filter map].
      rewrite app_nil_r, lastn_all by exact Hl. split; [exact Hl|reflexivity].
    + assert (Hb := deliver_buffer s bm Hl).
      assert (Hl' : List.length (incomingLinkData (deliver s bm)) <= 100)
        by (rewrite Hb, lastn_length; lia).
      destruct (IH _ Hl') as [H1 H2].
      change (deliver_all (bm :: l) s) with (deliver_all l (deliver s bm)).
      split; [exact H1|]. rewrite H2, Hb, lastn_lastn_app, <- app_assoc.
      f_equal. f_equal. unfold accepted. cbn [filter].
      destruct (fst bm); reflexivity.
Qed.

(** Three pushes into the empty buffer of a new sensor, the second while
    the sensor is inactive. *)
Lemma C4_buffer_keeps_the_last_100_witness :
  let l := [(true, Scenario.sample_k); (false, Scenario.sample_k);
            (true, Scenario.sample_k)] in
  let s := Scenario.fresh "model::link" in
  List.length (incomingLinkData s) <= 100 /\
  incomingLinkData (deliver_all l s) =
  lastn 100 (incomingLinkData s ++ accepted l).
Proof.
  intros l s.
  assert (H : List.length (incomingLinkData s) <= 100) by (cbn; lia).
  exact (conj H
    (proj2 (proj2 (proj2 (C4_buffer_keeps_the_last_100 Exact)) l s H))).
Defined.

(** ** C5 and C6: rotations, over exact arithmetic *)

Ltac exact_ops :=
  unfold RotateVector, GetInverse, qmul, qnorm2, vsub, vdiv, vadd,
    Quaternion_identity, Vector3_zero in *;
  cbn [double d0 d1 dadd dsub dmul ddiv dopp Exact
       vx vy vz qw qx qy qz qmul qnorm2 GetInverse RotateVector
       vsub vdiv vadd Quaternion_identity Vector3_zero] in *;
  change (@double Exact) with Qc in *.

Section ExactRotations.

Local Open Scope Qc_scope.

Lemma qmul_GetInverse (q : @Quaternion Exact) :
  @qnorm2 Exact q <> 0 -> qmul q (GetInverse q) = Quaternion_identity.
Proof.
  destruct q as [a b c d]. intros H.
  apply (@Quaternion_ext Exact); unfold qmul, GetInverse, qnorm2 in *;
    exact_ops; field; exact H.
Qed.

Lemma GetInverse_identity :
  @GetInverse Exact Quaternion_identity = Quaternion_identity.
Proof. quat_eq. Qed.

Lemma RotateVector_identity (v : @Vector3 Exact) :
  RotateVector (GetInverse Quaternion_identity) v = v.
Proof.
  rewrite GetInverse_identity. unfold RotateVector.
  rewrite GetInverse_identity. destruct v as [a b c].
  apply (@Vector3_ext Exact); unfold qmul; exact_ops; ring.
Qed.

Lemma g98_opposite : Scenario.qc 49 5 = - Scenario.qc (-49) 5.
Proof. qc_eq. Qed.

End ExactRotations.

(** C5, as stated, fails.  The parent is at rest at the tick, the sensor
    is aligned with the world and with its reference, gravity is
    (0, 0, -9.8), but the velocity stored by the tick before was (1, 0, 0):
    one second later the tick reports (-1, 0, 9.8). *)
Lemma C5_counterexample_velocity_before :
  let w := Scenario.rest Scenario.second in
  let s := Scenario.braked in
  exists (s' : @ImuSensor Exact) (out : list (@Packet Exact)),
    UpdateImpl w false s = Ok (s', out) /\
    snd (sample_at w 0 s) = Vector3_zero /\
    GetWorldAngularVel (deref w 0) = Vector3_zero /\
    rot (imuPose_at w 0 s) = Quaternion_identity /\
    rot (referencePose s) = rot (imuPose_at w 0 s) /\
    GetGravity w = Scenario.g98 /\
    GetLinearAcceleration s' <> Scenario.vec 0 0 (Scenario.qc 49 5).
Proof.
  intros w s0. provide (UpdateImpl w false s0).
  repeat split; try (reflexivity || vec_eq || quat_eq). vec_neq.
Qed.

(** C5, amended.  For a tick with [dt > 0] in which the velocity of the
    world at the sensor and the velocity stored by the tick before are
    both zero, the sensor is aligned with the world, and gravity is
    (0, 0, -9.8), the reported linear acceleration is (0, 0, 9.8).  For
    every tick with [dt > 0], and any arithmetic, the reported acceleration
    is the differentiated acceleration less the gravity vector, both
    rotated by the inverse of the current orientation. *)
Theorem C5_gravity_compensation :
  (forall (w : @World Exact) (f : bool) (s s' : @ImuSensor Exact)
          (out : list (@Packet Exact)) (p : LinkPtr),
     UpdateImpl w f s = Ok (s', out) ->
     parentEntity s = Some p ->
     @dgt Exact (dt_at w p s) d0 = true ->
     snd (sample_at w p s) = Vector3_zero ->
     lastLinearVel s = Vector3_zero ->
     rot (imuPose_at w p s) = Quaternion_identity ->
     GetGravity w = Scenario.g98 ->
     GetLinearAcceleration s' = Scenario.vec 0 0 (Scenario.qc 49 5)) /\
  (forall (N : Numeric) (w : World) (f : bool) (s s' : ImuSensor)
          (out : list Packet) (p : LinkPtr),
     UpdateImpl w f s = Ok (s', out) ->
     parentEntity s = Some p ->
     dgt (dt_at w p s) d0 = true ->
     GetLinearAcceleration s' =
     vsub (RotateVector (GetInverse (rot (imuPose_at w p s)))
             (vdiv (vsub (snd (sample_at w p s)) (lastLinearVel s))
                   (dt_at w p s)))
          (RotateVector (GetInverse (rot (imuPose_at w p s)))
             (GetGravity w))).
Proof.
  split.
  - intros w f s s' out p H Hp Hdt Hv Hl Hq Hg.
    destruct (UpdateImpl_differentiates _ _ _ H Hp Hdt) as (Ha & Hm & _).
    rewrite Hm, Ha. unfold into_body. rewrite Hq, Hv, Hl, Hg.
    rewrite !RotateVector_identity.
    generalize (dt_at w p s). intros dt.
    apply (@Vector3_ext Exact); unfold Scenario.g98, Scenario.vec;
      exact_ops; rewrite ?g98_opposite; unfold Qcdiv; ring.
  - intros N w f s s' out p H Hp Hdt.
    destruct (UpdateImpl_differentiates _ _ _ H Hp Hdt) as (Ha & Hm & _).
    rewrite Hm, Ha. reflexivity.
Qed.

(** The body at rest, one second after the time the sensor holds. *)
Lemma C5_gravity_compensation_witness :
  let w := Scenario.rest Scenario.second in
  exists (s' : @ImuSensor Exact) (out : list (@Packet Exact)),
    UpdateImpl w false Scenario.loaded = Ok (s', out) /\
    @dgt Exact (dt_at w 0 Scenario.loaded) d0 = true /\
    GetLinearAcceleration s' = Scenario.vec 0 0 (Scenario.qc 49 5).
Proof.
  intros w. provide (UpdateImpl w false Scenario.loaded).
  assert (H : UpdateImpl w false Scenario.loaded = Ok (s, o)) by reflexivity.
  assert (Hdt : @dgt Exact (dt_at w 0 Scenario.loaded) d0 = true)
    by reflexivity.
  assert (Hq : rot (imuPose_at w 0 Scenario.loaded) = Quaternion_identity)
    by quat_eq.
  exact (conj H (conj Hdt
    (proj1 C5_gravity_compensation w false Scenario.loaded s o 0%nat
       H eq_refl Hdt eq_refl eq_refl Hq eq_refl))).
Defined.

(** C6, as stated, fails in binary64 arithmetic.  On a body turned by 60
    degrees about the x axis, [SetReferencePose] and then a tick in the
    same world: the orientation of the sensor in the world is the
    reference orientation, and the tick reports (1, -2^-54, 0, 0), the
    identity up to rounding. *)
Lemma C6_counterexample_binary64_rounding :
  let w := Tilt64.world in
  exists (s1 s2 : @ImuSensor Binary64) (out : list (@Packet Binary64)),
    SetReferencePose w Scenario64.loaded = Ok s1 /\
    UpdateImpl w false s1 = Ok (s2, out) /\
    rot (imuPose_at w 0 s1) = rot (referencePose s1) /\
    qx (GetOrientation s2) = (-0x1p-54)%float /\
    GetOrientation s2 <> Quaternion_identity.
Proof.
  intros w. provide (SetReferencePose w Scenario64.loaded).
  provide (UpdateImpl w false s).
  repeat split; try reflexivity.
  intros E.
  apply (f_equal (fun q => PrimFloat.eqb (@qx Binary64 q) 0%float)) in E.
  vm_compute in E. discriminate E.
Qed.

(** C6, amended.  The orientation a tick reports is the orientation of the
    sensor in the world times the inverse of the reference orientation,
    for any arithmetic.  Over exact arithmetic, when the orientation in the
    world is the reference orientation, a unit quaternion, the reported
    orientation is the identity quaternion. *)
Theorem C6_relative_orientation :
  (forall (N : Numeric) (w : World) (f : bool) (s s' : ImuSensor)
          (out : list Packet) (p : LinkPtr),
     UpdateImpl w f s = Ok (s', out) ->
     parentEntity s = Some p ->
     GetOrientation s' =
     qmul (rot (imuPose_at w p s)) (GetInverse (rot (referencePose s)))) /\
  (forall (w : @World Exact) (f : bool) (s s' : @ImuSensor Exact)
          (out : list (@Packet Exact)) (p : LinkPtr),
     UpdateImpl w f s = Ok (s', out) ->
     parentEntity s = Some p ->
     rot (imuPose_at w p s) = rot (referencePose s) ->
     @qnorm2 Exact (rot (referencePose s)) = d1 ->
     GetOrientation s' = Quaternion_identity).
Proof.
  assert (G : forall (N : Numeric) (w : World) (f : bool) (s s' : ImuSensor)
                     (out : list Packet) (p : LinkPtr),
             UpdateImpl w f s = Ok (s', out) ->
             parentEntity s = Some p ->
             GetOrientation s' =
             qmul (rot (imuPose_at w p s))
                  (GetInverse (rot (referencePose s)))).
  { intros N w f s s' out p H Hp.
    destruct (UpdateImpl_reading _ _ _ H) as (p' & Hp' & _ & _ & _ & _ & Hm & _).
    assert (p' = p) by congruence. subst p'.
    unfold GetOrientation. rewrite Hm. reflexivity. }
  split; [exact G|].
  intros w f s s' out p H Hp Hq Hn.
  rewrite (G Exact _ _ _ _ _ _ H Hp), Hq.
  apply qmul_GetInverse. rewrite Hn. discriminate.
Qed.

(** A sensor loaded on a body with the orientation (3/5, 4/5, 0, 0), and
    a tick while the body has not turned. *)
Lemma C6_relative_orientation_witness :
  let w := Scenario.tilted Scenario.second in
  exists (s s' : @ImuSensor Exact) (out : list (@Packet Exact)),
    Scenario.load w (Scenario.fresh "model::link") = Some s /\
    UpdateImpl w false s = Ok (s', out) /\
    rot (imuPose_at w 0 s) = rot (referencePose s) /\
    @qnorm2 Exact (rot (referencePose s)) = d1 /\
    GetOrientation s' = Quaternion_identity.
Proof.
  intros w. provide (Scenario.load w (Scenario.fresh "model::link")).
  provide (UpdateImpl w false s).
  assert (H : UpdateImpl w false s = Ok (s0, o)) by reflexivity.
  assert (Hq : rot (imuPose_at w 0 s) = rot (referencePose s)) by quat_eq.
  assert (Hn : @qnorm2 Exact (rot (referencePose s)) = d1) by qc_eq.
  exact (conj eq_refl (conj H (conj Hq (conj Hn
    (proj2 C6_relative_orientation w false s s0 o 0%nat
       H eq_refl Hq Hn))))).
Defined.

(** ** C7: the discovery handshake *)

(** C7.  A response is ignored, with no change of state, when no request
    is outstanding or when its identifier is not the one of the outstanding
    request.  A response with the identifier of the outstanding request,
    on a sensor whose parent is resolved, subscribes [OnLinkData] to the
    topic of the parent link and clears the request, and changes nothing
    else; after it every response, the same one included, is ignored. *)
Theorem C7_discovery_response (N : Numeric) :
  (forall (w : World) (msg : Response) (s : ImuSensor),
     requestMsg s = None -> OnResponse w msg s = Ok s) /\
  (forall (w : World) (msg : Response) (s : ImuSensor) (r : Request),
     requestMsg s = Some r ->
     response_id msg <> request_id r ->
     OnResponse w msg s = Ok s) /\
  (forall (w : World) (msg : Response) (s : ImuSensor) (r : Request)
          (p : LinkPtr),
     requestMsg s = Some r ->
     response_id msg = request_id r ->
     parentEntity s = Some p ->
     let s' :=
       set_requestMsg None
         (set_responseSub
            (Some (Subscribe ("~/" ++ GetScopedName (deref w p))%string
                             CbOnLinkData)) s) in
     OnResponse w msg s = Ok s' /\
     requestMsg s' = None /\
     responseSub s' =
       Some (Subscribe ("~/" ++ GetScopedName (deref w p))%string
                       CbOnLinkData) /\
     forall (w' : World) (msg' : Response), OnResponse w' msg' s' = Ok s').
Proof.
  split; [|split].
  - intros w msg s H. unfold OnResponse. rewrite H. reflexivity.
  - intros w msg s r H Hne. unfold OnResponse. rewrite H.
    destruct (Z.eqb_spec (response_id msg) (request_id r)); [contradiction|].
    reflexivity.
  - intros w msg s r p H He Hp s'. split; [|repeat split].
    unfold OnResponse. rewrite H, He, Z.eqb_refl, Hp. reflexivity.
Qed.

(** Request 7 is outstanding: the response to request 8 is ignored, the
    response to request 7 subscribes to "~/model::link", and the same
    response once more is ignored. *)
Lemma C7_discovery_response_witness :
  let w := Scenario.rest Scenario.second in
  let s' :=
    set_requestMsg None
      (set_responseSub (Some (Subscribe "~/model::link" CbOnLinkData))
                       Scenario.awaiting) in
  OnResponse w Scenario.response8 Scenario.awaiting = Ok Scenario.awaiting /\
  OnResponse w Scenario.response7 Scenario.awaiting = Ok s' /\
  OnResponse w Scenario.response7 s' = Ok s'.
Proof.
  intros w s'.
  assert (Hne : response_id Scenario.response8
                <> request_id (CreateRequest "link_publish" 7))
    by (cbn; lia).
  destruct (C7_discovery_response Exact) as (_ & Hother & Hsame).
  destruct (Hsame w Scenario.response7 Scenario.awaiting
              (CreateRequest "link_publish" 7) 0%nat eq_refl eq_refl eq_refl)
    as (H1 & _ & _ & H2).
  exact (conj (Hother w Scenario.response8 Scenario.awaiting _ eq_refl Hne)
              (conj H1 (H2 w Scenario.response7))).
Defined.

(** ** C8: the parent of the sensor *)

(** C8.  Once the base class has loaded, [Load] throws exactly when the
    world has no link under the name of the parent: no entity, or an
    entity that is not a link.  It returns exactly when there is one, and
    then the sensor holds the pointer to this link and the reference pose
    is the pose of the sensor composed onto the pose of the link. *)
Theorem C8_Load_throws_iff_parent_is_no_link (N : Numeric)
    (Sensor_Load : string -> World -> ImuSensor -> Result ImuSensor)
    (_worldName : string) (w : World) (s s1 : ImuSensor) :
  Sensor_Load _worldName w s = Ok s1 ->
  ((exists what, Load Sensor_Load _worldName w s = Throw what) <->
   (forall p, GetEntity w (parentName s1) <> Some (EntityLink p))) /\
  ((exists s', Load Sensor_Load _worldName w s = Ok s') <->
   (exists p, GetEntity w (parentName s1) = Some (EntityLink p))) /\
  (forall s', Load Sensor_Load _worldName w s = Ok s' ->
     exists p, GetEntity w (parentName s1) = Some (EntityLink p) /\
       parentEntity s' = Some p /\
       referencePose s' = Pose_add (pose s1) (GetWorldPose (deref w p))).
Proof.
  intros Hb. unfold Load. rewrite Hb. cbn [bind parentEntity set_parentEntity
    parentName pose referencePose set_referencePose set_lastLinearVel].
  destruct (GetEntity w (parentName s1)) as [[p|]|]; cbn.
  - split; [|split].
    + split; [intros (m & H); discriminate H|intros H; destruct (H p eq_refl)].
    + split; eauto.
    + intros s' H. inversion H; subst. exists p. cbn. auto.
  - split; [|split].
    + split; [discriminate|eauto].
    + split; [intros (s' & H); discriminate H|intros (p & H); discriminate H].
    + intros s' H. discriminate H.
  - split; [|split].
    + split; [discriminate|eauto].
    + split; [intros (s' & H); discriminate H|intros (p & H); discriminate H].
    + intros s' H. discriminate H.
Qed.

(** In the world of [Scenario.world], "model" is no link and
    "model::link" is one. *)
Lemma C8_Load_throws_iff_parent_is_no_link_witness :
  let w := Scenario.rest Scenario.second in
  (exists what,
     Load Scenario.base_Load "default" w (Scenario.fresh "model")
     = Throw what) /\
  (exists s',
     Load Scenario.base_Load "default" w (Scenario.fresh "model::link")
     = Ok s').
Proof.
  intros w. split.
  - apply (proj1 (C8_Load_throws_iff_parent_is_no_link
                    Scenario.base_Load "default" w
                    (Scenario.fresh "model") eq_refl)).
    intros p. cbn. discriminate.
  - apply (proj1 (proj2 (C8_Load_throws_iff_parent_is_no_link
                    Scenario.base_Load "default" w
                    (Scenario.fresh "model::link") eq_refl))).
    exists 0%nat. reflexivity.
Defined.

(** ** C9 and C10: runs of a loaded sensor *)

Section RunFacts.
Context {N : Numeric}.

Lemma OnResponse_frame (w : World) (m : Response) (s s' : ImuSensor) :
  OnResponse w m s = Ok s' -> pub s' = pub s /\ imuMsg s' = imuMsg s.
Proof.
  unfold OnResponse. destruct (requestMsg s) as [r|].
  - destruct (negb _).
    + intros H; inversion H; auto.
    + destruct (parentEntity s); [|discriminate].
      intros H; inversion H; auto.
  - intros H; inversion H; auto.
Qed.

Lemma OnLinkData_frame (m : LinkData) (s : ImuSensor) :
  pub (OnLinkData m s) = pub s /\ imuMsg (OnLinkData m s) = imuMsg s.
Proof.
  unfold OnLinkData. destruct (IsActive s); [|auto].
  cbn [incomingLinkData set_incomingLinkData].
  destruct (100 <? _); auto.
Qed.

Lemma SetReferencePose_frame (w : World) (s s' : ImuSensor) :
  SetReferencePose w s = Ok s' -> pub s' = pub s /\ imuMsg s' = imuMsg s.
Proof.
  unfold SetReferencePose. destruct (parentEntity s); [|discriminate].
  intros H; inversion H; auto.
Qed.

(** What one call publishes, and what it does to the publisher. *)
Lemma step_publishes (e : Event) (s s' : ImuSensor) (out : list Packet) :
  step e s = Ok (s', out) ->
  pub s' = pub s /\
  List.length (filter is_imu out) =
  (if is_update e
   then match pub s with Some _ => 1 | None => 0 end
   else 0).
Proof.
  destruct e as [w m|m|v|w|w f]; cbn [step is_update].
  - destruct (OnResponse w m s) as [s0| |] eqn:E; cbn; try discriminate.
    intros H; inversion H; subst. split; [apply (OnResponse_frame _ _ _ E)|auto].
  - intros H; inversion H; subst. split; [apply OnLinkData_frame|auto].
  - intros H; inversion H; subst. auto.
  - destruct (SetReferencePose w s) as [s0| |] eqn:E; cbn; try discriminate.
    intros H; inversion H; subst.
    split; [apply (SetReferencePose_frame _ _ E)|auto].
  - intros H. split; [apply (UpdateImpl_frame _ _ _ H)|].
    destruct (UpdateImpl_reading _ _ _ H) as (p & _ & _ & _ & _ & _ & _ & Ho).
    rewrite Ho. destruct (pub s); reflexivity.
Qed.

(** A call that is no tick leaves the reading alone. *)
Lemma step_keeps_reading (e : Event) (s s' : ImuSensor) (out : list Packet) :
  is_update e = false -> step e s = Ok (s', out) -> imuMsg s' = imuMsg s.
Proof.
  destruct e as [w m|m|v|w|w f]; cbn [step is_update]; intros Hu;
    try discriminate Hu.
  - destruct (OnResponse w m s) as [s0| |] eqn:E; cbn; try discriminate.
    intros H; inversion H; subst. apply (OnResponse_frame _ _ _ E).
  - intros H; inversion H; subst. apply OnLinkData_frame.
  - intros H; inversion H; subst. reflexivity.
  - destruct (SetReferencePose w s) as [s0| |] eqn:E; cbn; try discriminate.
    intros H; inversion H; subst. apply (SetReferencePose_frame _ _ E).
Qed.

Lemma run_cons (e : Event) (es : list Event) (s s2 : ImuSensor)
    (out : list Packet) :
  run (e :: es) s = Ok (s2, out) ->
  exists s1 out1 out2,
    step e s = Ok (s1, out1) /\ run es s1 = Ok (s2, out2) /\
    out = out1 ++ out2.
Proof.
  cbn [run]. destruct (step e s) as [[s1 out1]| |]; cbn; try discriminate.
  destruct (run es s1) as [[s2' out2]| |] eqn:E2; cbn; try discriminate.
  intros H; cbn in H; inversion H; subst.
  exists s1, out1, out2. auto.
Qed.

Lemma run_publishes (es : list Event) (s s2 : ImuSensor) (out : list Packet)
    (q : Publisher) :
  pub s = Some q ->
  run es s = Ok (s2, out) ->
  pub s2 = Some q /\
  List.length (filter is_imu out) = List.length (filter is_update es).
Proof.
  revert s out. induction es as [|e es IH]; intros s out Hq H.
  - cbn in H. inversion H; subst. auto.
  - destruct (run_cons _ _ _ H) as (s1 & out1 & out2 & Hs & Hr & ->).
    destruct (step_publishes _ _ Hs) as [Hp Hn].
    rewrite Hq in Hp, Hn.
    destruct (IH _ _ Hp Hr) as [Hp2 Hn2]. split; [exact Hp2|].
    rewrite filter_app, length_app, Hn, Hn2. cbn [filter].
    destruct (is_update e); reflexivity.
Qed.

Lemma run_keeps_reading (es : list Event) (s s2 : ImuSensor)
    (out : list Packet) :
  forallb (fun e => negb (is_update e)) es = true ->
  run es s = Ok (s2, out) -> imuMsg s2 = imuMsg s.
Proof.
  revert s out. induction es as [|e es IH]; intros s out Hn H.
  - cbn in H. inversion H; subst. reflexivity.
  - cbn [forallb] in Hn. apply andb_prop in Hn. destruct Hn as [He Hes].
    destruct (run_cons _ _ _ H) as (s1 & out1 & out2 & Hs & Hr & _).
    rewrite (IH _ _ Hes Hr).
    eapply step_keeps_reading; cycle 1; [exact Hs|].
    destruct (is_update e); [discriminate He|reflexivity].
Qed.

End RunFacts.

(** C9.  When the [Load] that reads the description returns, the sensor
    holds a publisher, whichever branch chose the topic.  No later call
    changes it: in every run from there each tick publishes one IMU
    message, and no other call publishes one. *)
Theorem C9_one_message_per_tick (N : Numeric)
    (Sensor_Load_sdf :
       string -> sdf_Element -> World -> ImuSensor -> Result ImuSensor)
    (id : Z) (_worldName : string) (_sdf : sdf_Element) (w0 : World)
    (s0 s1 : ImuSensor) (out1 : list Packet) :
  Load_sdf Sensor_Load_sdf id _worldName _sdf w0 s0 = Ok (s1, out1) ->
  exists q, pub s1 = Some q /\
    forall (es : list Event) (s2 : ImuSensor) (out : list Packet),
      run es s1 = Ok (s2, out) ->
      pub s2 = Some q /\
      List.length (filter is_imu out) = List.length (filter is_update es).
Proof.
  intros H. unfold Load_sdf in H.
  destruct (Sensor_Load_sdf _worldName _sdf w0 s0) as [sb| |];
    cbn [bind] in H; try discriminate H.
  cbn beta zeta in H.
  destruct (imu (sdf sb)) as [e|];
    [destruct (topic e) as [t|];
       [destruct (String.eqb t default_topic)|]|];
    cbn [requestPub requestMsg set_requestMsg set_responseSub
         set_requestPub set_pub] in H;
    inversion H; subst;
    (eexists; split; [reflexivity|]);
    intros es s2 out Hr; (eapply run_publishes; [|exact Hr]); reflexivity.
Qed.

(** A description with no [imu] element, then two ticks around one
    delivery of link data: two IMU messages. *)
Lemma C9_one_message_per_tick_witness :
  let w := Scenario.rest Scenario.second in
  let es := [EvUpdate w false; EvOnLinkData Scenario.sample_k;
             EvUpdate w false] in
  exists (s1 : @ImuSensor Exact) (out1 : list (@Packet Exact))
         (s2 : @ImuSensor Exact) (out : list (@Packet Exact)),
    Load_sdf Scenario.base_Load_sdf 7 "default" (mk_sdf_Element None) w
             Scenario.resolved = Ok (s1, out1) /\
    run es s1 = Ok (s2, out) /\
    List.length (filter is_imu out) = 2.
Proof.
  intros w es.
  provide (Load_sdf Scenario.base_Load_sdf 7 "default" (mk_sdf_Element None)
                    w Scenario.resolved).
  provide (run es s).
  assert (H : Load_sdf Scenario.base_Load_sdf 7 "default"
                (mk_sdf_Element None) w Scenario.resolved = Ok (s, o))
    by reflexivity.
  assert (Hr : run es s = Ok (s0, o0)) by reflexivity.
  destruct (C9_one_message_per_tick _ _ _ _ _ _ H) as (q & _ & Hrun).
  exact (conj H (conj Hr (proj2 (Hrun es s0 o0 Hr)))).
Defined.

(** C10.  The accessors are functions of the sensor: they have no state to
    change.  After a tick they return the angular velocity in the body
    frame, the linear acceleration less the gravity in the body frame and
    the orientation relative to the reference that the tick assembled, and
    they still do after any calls that are no tick. *)
Theorem C10_accessors_return_the_last_reading (N : Numeric) (w : World)
    (f : bool) (s s1 : ImuSensor) (out : list Packet) (p : LinkPtr) :
  UpdateImpl w f s = Ok (s1, out) ->
  parentEntity s = Some p ->
  (GetAngularVelocity s1 = into_body w p s (GetWorldAngularVel (deref w p)) /\
   GetLinearAcceleration s1 =
     vsub (if dgt (dt_at w p s) d0
           then into_body w p s
                  (vdiv (vsub (snd (sample_at w p s)) (lastLinearVel s))
                        (dt_at w p s))
           else linearAcc s)
          (into_body w p s (GetGravity w)) /\
   GetOrientation s1 =
     qmul (rot (imuPose_at w p s)) (GetInverse (rot (referencePose s)))) /\
  (forall (es : list Event) (s2 : ImuSensor) (out2 : list Packet),
     forallb (fun e => negb (is_update e)) es = true ->
     run es s1 = Ok (s2, out2) ->
     GetAngularVelocity s2 = GetAngularVelocity s1 /\
     GetLinearAcceleration s2 = GetLinearAcceleration s1 /\
     GetOrientation s2 = GetOrientation s1).
Proof.
  intros H Hp.
  destruct (UpdateImpl_reading _ _ _ H) as (p' & Hp' & _ & _ & Ha & _ & Hm & _).
  assert (p' = p) by congruence. subst p'.
  unfold GetAngularVelocity, GetLinearAcceleration, GetOrientation.
  split.
  - rewrite Hm. cbn [angular_velocity linear_acceleration orientation].
    rewrite Ha. auto.
  - intros es s2 out2 Hn Hr. rewrite (run_keeps_reading es _ Hn Hr). auto.
Qed.

(** A tick, then link data, a new reference pose and a deactivation. *)
Lemma C10_accessors_return_the_last_reading_witness :
  let w := Scenario.rest Scenario.second in
  let es := [EvOnLinkData Scenario.sample_k; EvSetReferencePose w;
             EvSetActive false] in
  exists (s1 : @ImuSensor Exact) (out : list (@Packet Exact))
         (s2 : @ImuSensor Exact) (out2 : list (@Packet Exact)),
    UpdateImpl w false Scenario.loaded = Ok (s1, out) /\
    run es s1 = Ok (s2, out2) /\
    GetLinearAcceleration s2 = GetLinearAcceleration s1.
Proof.
  intros w es. provide (UpdateImpl w false Scenario.loaded).
  provide (run es s).
  assert (H : UpdateImpl w false Scenario.loaded = Ok (s, o)) by reflexivity.
  assert (Hr : run es s = Ok (s0, o0)) by reflexivity.
  exact (conj H (conj Hr
    (proj1 (proj2 (proj2 (C10_accessors_return_the_last_reading
                            w false Scenario.loaded (p := 0%nat) H eq_refl)
                         es s0 o0 eq_refl Hr))))).
Defined.

(** * Further properties of the code *)

(** ** The default topic of [Load] *)

Lemma has_double_colon_cons (c : ascii) (s : string) :
  has_double_colon (String c s) =
  (Ascii.eqb c ":" && starts_with_colon s) || has_double_colon s.
Proof. destruct s; cbn; [rewrite andb_false_r|]; reflexivity. Qed.

Lemma replace_all_colons_cons (c c' : ascii) (r : string) :
  replace_all_colons (String c (String c' r)) =
  if (Ascii.eqb c ":" && Ascii.eqb c' ":")%bool
  then String "/" (replace_all_colons r)
  else String c (replace_all_colons (String c' r)).
Proof. reflexivity. Qed.

Lemma replace_all_colons_head (s : string) :
  starts_with_colon (replace_all_colons s) = true ->
  starts_with_colon s = true.
Proof.
  destruct s as [|c [|c' r]]; cbn; try (intros H; exact H).
  destruct (Ascii.eqb c ":" && Ascii.eqb c' ":")%bool eqn:E; cbn.
  - discriminate.
  - intros H; exact H.
Qed.

Lemma replace_all_colons_clean_upto (n : nat) (s : string) :
  String.length s <= n ->
  has_double_colon (replace_all_colons s) = false.
Proof.
  revert s. induction n as [|n IH]; intros s H.
  - destruct s; [reflexivity|cbn in H; lia].
  - destruct s as [|c [|c' r]]; try reflexivity.
    rewrite replace_all_colons_cons.
    destruct (Ascii.eqb c ":" && Ascii.eqb c' ":")%bool eqn:E.
    + rewrite has_double_colon_cons.
      rewrite IH by (cbn in H; lia). reflexivity.
    + rewrite has_double_colon_cons.
      rewrite IH by (cbn in H |- *; lia). rewrite orb_false_r.
      destruct (Ascii.eqb c ":") eqn:Ec; [|reflexivity]. cbn [andb] in *.
      destruct (starts_with_colon (replace_all_colons (String c' r))) eqn:Eh;
        [|reflexivity].
      apply replace_all_colons_head in Eh. cbn in Eh. congruence.
Qed.

(** X1.  What [boost::replace_all(topicName, "::", "/")] returns holds no
    two colons in a row, whatever the names of the parent and the sensor
    are. *)
Theorem replace_all_colons_clean (s : string) :
  has_double_colon (replace_all_colons s) = false.
Proof. apply (@replace_all_colons_clean_upto (String.length s)). lia. Qed.

Lemma replace_all_colons_fixes_upto (n : nat) (s : string) :
  String.length s <= n ->
  has_double_colon s = false -> replace_all_colons s = s.
Proof.
  revert s. induction n as [|n IH]; intros s H Hc.
  - destruct s; [reflexivity|cbn in H; lia].
  - destruct s as [|c [|c' r]]; try reflexivity.
    rewrite has_double_colon_cons in Hc. apply orb_false_elim in Hc.
    destruct Hc as [Hh Ht]. cbn [starts_with_colon] in Hh.
    rewrite replace_all_colons_cons, Hh.
    rewrite IH by (cbn in H |- *; lia || exact Ht). reflexivity.
Qed.

(** X2.  The replacement leaves a name with no two colons in a row as it
    is; so replacing twice is replacing once. *)
Theorem replace_all_colons_fixes_clean_names (s : string) :
  (has_double_colon s = false -> replace_all_colons s = s) /\
  replace_all_colons (replace_all_colons s) = replace_all_colons s.
Proof.
  assert (F : forall t, has_double_colon t = false -> replace_all_colons t = t)
    by (intros t; apply (@replace_all_colons_fixes_upto (String.length t));
        lia).
  split; [apply F|]. apply F. apply replace_all_colons_clean.
Qed.

(** The name "~/model/link/imu_sensor/imu" is left as it is. *)
Lemma replace_all_colons_fixes_clean_names_witness :
  has_double_colon "~/model/link/imu_sensor/imu" = false /\
  replace_all_colons "~/model/link/imu_sensor/imu"
  = "~/model/link/imu_sensor/imu"%string.
Proof.
  assert (H : has_double_colon "~/model/link/imu_sensor/imu" = false)
    by reflexivity.
  exact (conj H
    (proj1 (replace_all_colons_fixes_clean_names _) H)).
Defined.

Lemma default_imu_topic_prefix (N : Numeric) (s : ImuSensor) :
  starts_with_tilde_slash (default_imu_topic s) = true.
Proof.
  unfold default_imu_topic.
  change ("~/" ++ (parentName s ++ "/" ++ name s ++ "/imu"))%string
    with (String "~" (String "/"
            (parentName s ++ "/" ++ name s ++ "/imu")%string)).
  rewrite replace_all_colons_cons. cbn [Ascii.eqb andb Bool.eqb].
  destruct (parentName s ++ "/" ++ name s ++ "/imu")%string as [|c r].
  - reflexivity.
  - rewrite replace_all_colons_cons.
    change (Ascii.eqb "/" ":") with false. reflexivity.
Qed.

(** ** [Load] with a description *)

(** X3.  When [Load] with a description returns, the sensor publishes
    either on the topic of the description, taken as it is, when the [imu]
    element has a [topic] other than "__default_topic__"; or else on the
    default topic, which starts with "~/" and holds no two colons in a
    row. *)
Theorem Load_sdf_topic (N : Numeric)
    (Sensor_Load_sdf :
       string -> sdf_Element -> World -> ImuSensor -> Result ImuSensor)
    (id : Z) (_worldName : string) (_sdf : sdf_Element) (w : World)
    (s s1 : ImuSensor) (out : list Packet) :
  Load_sdf Sensor_Load_sdf id _worldName _sdf w s = Ok (s1, out) ->
  exists sb, Sensor_Load_sdf _worldName _sdf w s = Ok sb /\
    ((exists e t, imu (sdf sb) = Some e /\ topic e = Some t /\
                  t <> default_topic /\ pub s1 = Some (Advertise t)) \/
     ((forall e t, imu (sdf sb) = Some e -> topic e = Some t ->
                   t = default_topic) /\
      pub s1 = Some (Advertise (default_imu_topic sb)) /\
      starts_with_tilde_slash (default_imu_topic sb) = true /\
      has_double_colon (default_imu_topic sb) = false)).
Proof.
  intros H. unfold Load_sdf in H.
  destruct (Sensor_Load_sdf _worldName _sdf w s) as [sb| |];
    cbn [bind] in H; try discriminate H.
  exists sb. split; [reflexivity|]. cbn beta zeta in H.
  assert (D : pub s1 = Some (Advertise (default_imu_topic sb)) ->
              starts_with_tilde_slash (default_imu_topic sb) = true /\
              has_double_colon (default_imu_topic sb) = false).
  { intros _. split; [apply default_imu_topic_prefix|].
    apply replace_all_colons_clean. }
  destruct (imu (sdf sb)) as [e|] eqn:Ei;
    [destruct (topic e) as [t|] eqn:Et;
       [destruct (String.eqb_spec t default_topic) as [Ed|Ed]|]|];
    cbn [requestPub requestMsg set_requestMsg set_responseSub
         set_requestPub set_pub] in H;
    inversion H; subst s1 out; clear H;
    cbn [pub set_requestMsg set_responseSub set_requestPub set_pub] in *.
  - right. split; [|split; [reflexivity|apply D; reflexivity]].
    intros e' t' He' Ht'. congruence.
  - left. exists e, t. auto.
  - right. split; [|split; [reflexivity|apply D; reflexivity]].
    intros e' t' He' Ht'. congruence.
  - right. split; [|split; [reflexivity|apply D; reflexivity]].
    intros e' t' He' Ht'. congruence.
Qed.

(** A description with the topic "my::imu": the sensor publishes on
    "my::imu". *)
Lemma Load_sdf_topic_witness :
  let w := Scenario.rest Scenario.second in
  exists (s1 : @ImuSensor Exact) (out : list (@Packet Exact)),
    Load_sdf Scenario.base_Load_sdf 7 "default" (Cruise.described "my::imu")
             w Scenario.resolved = Ok (s1, out) /\
    pub s1 = Some (Advertise "my::imu").
Proof.
  intros w.
  provide (Load_sdf Scenario.base_Load_sdf 7 "default"
                    (Cruise.described "my::imu") w Scenario.resolved).
  assert (H : Load_sdf Scenario.base_Load_sdf 7 "default"
                (Cruise.described "my::imu") w Scenario.resolved = Ok (s, o))
    by reflexivity.
  split; [exact H|].
  destruct (Load_sdf_topic _ _ _ _ _ _ H) as (sb & Hb & _).
  reflexivity.
Defined.

(** X4.  [Load] with a description hands one packet to the transport: the
    request "link_publish" with the identifier it was given, on
    "~/request"; it listens on "~/response" and holds this request as the
    outstanding one.  On the sensor it leaves, a response with another
    identifier changes nothing; a response with this identifier
    subscribes [OnLinkData] to the topic of the parent link and clears the
    request, when the parent is resolved, and dereferences a null pointer
    when it is not. *)
Theorem Load_sdf_handshake (N : Numeric)
    (Sensor_Load_sdf :
       string -> sdf_Element -> World -> ImuSensor -> Result ImuSensor)
    (id : Z) (_worldName : string) (_sdf : sdf_Element) (w : World)
    (s s1 : ImuSensor) (out : list Packet) :
  Load_sdf Sensor_Load_sdf id _worldName _sdf w s = Ok (s1, out) ->
  out = [mkPacket (Advertise "~/request")
                  (MsgRequest (CreateRequest "link_publish" id))] /\
  requestMsg s1 = Some (CreateRequest "link_publish" id) /\
  responseSub s1 = Some (Subscribe "~/response" CbOnResponse) /\
  forall (w' : World) (msg : Response),
    (response_id msg <> id -> OnResponse w' msg s1 = Ok s1) /\
    (response_id msg = id ->
     OnResponse w' msg s1 =
     match parentEntity s1 with
     | Some p => Ok (subscribed w' p s1)
     | None => NullDeref
     end).
Proof.
  intros H. unfold Load_sdf in H.
  destruct (Sensor_Load_sdf _worldName _sdf w s) as [sb| |];
    cbn [bind] in H; try discriminate H.
  cbn beta zeta in H.
  cbn [requestPub requestMsg set_requestMsg set_responseSub
       set_requestPub set_pub] in H.
  injection H as H1 H2. subst out.
  assert (Hr : requestMsg s1 = Some (CreateRequest "link_publish" id))
    by (rewrite <- H1; reflexivity).
  split; [reflexivity|]. split; [exact Hr|].
  split; [rewrite <- H1; reflexivity|].
  clear H1. intros w' msg. unfold OnResponse. rewrite Hr.
  cbn [request_id CreateRequest]. split; intros Hid.
  - destruct (Z.eqb_spec (response_id msg) id); [contradiction|reflexivity].
  - rewrite Hid, Z.eqb_refl. cbn [negb].
    destruct (parentEntity s1); reflexivity.
Qed.

(** The request 7 goes out, and the response to it subscribes to
    "~/model::link". *)
Lemma Load_sdf_handshake_witness :
  let w := Scenario.rest Scenario.second in
  exists (s1 : @ImuSensor Exact) (out : list (@Packet Exact)),
    Load_sdf Scenario.base_Load_sdf 7 "default" (mk_sdf_Element None)
             w Scenario.resolved = Ok (s1, out) /\
    OnResponse w Scenario.response7 s1 = Ok (subscribed w 0 s1).
Proof.
  intros w.
  provide (Load_sdf Scenario.base_Load_sdf 7 "default" (mk_sdf_Element None)
                    w Scenario.resolved).
  assert (H : Load_sdf Scenario.base_Load_sdf 7 "default"
                (mk_sdf_Element None) w Scenario.resolved = Ok (s, o))
    by reflexivity.
  destruct (Load_sdf_handshake _ _ _ _ _ _ H) as (_ & _ & _ & Hresp).
  exact (conj H (proj2 (Hresp w Scenario.response7) eq_refl)).
Defined.

(** ** Invariants of a run *)

Section RunInvariants.
Context {N : Numeric}.

Lemma OnLinkData_only_buffer (m : LinkData) (s : ImuSensor) :
  OnLinkData m s = set_incomingLinkData (incomingLinkData (OnLinkData m s)) s.
Proof.
  unfold OnLinkData. destruct (IsActive s).
  - cbn [incomingLinkData set_incomingLinkData].
    destruct (100 <? _); reflexivity.
  - destruct s; reflexivity.
Qed.

(** What one call can change: the configuration never, the activity only
    through [SetActive], the buffer only through [OnLinkData]. *)
Lemma step_effect (e : Event) (s s' : ImuSensor) (out : list Packet) :
  step e s = Ok (s', out) ->
  configuration s' = configuration s /\
  active s' = match e with EvSetActive v => v | _ => active s end /\
  incomingLinkData s' =
    match e with
    | EvOnLinkData m => incomingLinkData (OnLinkData m s)
    | _ => incomingLinkData s
    end.
Proof.
  destruct e as [w m|m|v|w|w f]; cbn [step].
  - unfold OnResponse. destruct (requestMsg s) as [r|].
    + destruct (negb _); cbn [bind].
      * intros H; inversion H; subst; auto.
      * destruct (parentEntity s); cbn [bind]; [|discriminate].
        intros H; inversion H; subst; auto.
    + cbn [bind]. intros H; inversion H; subst; auto.
  - intros H; inversion H; subst. rewrite (OnLinkData_only_buffer m s) at 1 2.
    auto.
  - intros H; inversion H; subst. auto.
  - unfold SetReferencePose. destruct (parentEntity s) eqn:E; cbn [bind];
      [|discriminate].
    intros H; inversion H; subst. unfold configuration. cbn. rewrite E. auto.
  - intros H. destruct (UpdateImpl_frame _ _ _ H)
      as (H1 & H2 & H3 & H4 & H5 & H6 & _ & H8 & H9 & H10 & _).
    unfold configuration. rewrite H1, H2, H3, H4, H5, H6, H8, H9, H10. auto.
Qed.

Lemma step_needs_parent (e : Event) (s s' : ImuSensor) (out : list Packet) :
  step e s = Ok (s', out) ->
  parentEntity s = None ->
  is_update e || is_rezero e = false.
Proof.
  destruct e as [w m|m|v|w|w f]; cbn [step is_update is_rezero orb];
    try reflexivity; intros H Hp.
  - unfold SetReferencePose in H. rewrite Hp in H. discriminate H.
  - unfold UpdateImpl in H. rewrite Hp in H. discriminate H.
Qed.

End RunInvariants.

(** X5.  No call on the sensor changes its configuration: along every run
    the names, the mount pose, the description, the parent pointer and the
    two publishers stay what they were.  So on a sensor whose parent is not
    resolved, no run that returns holds a tick or a [SetReferencePose]. *)
Theorem run_keeps_configuration (N : Numeric) (es : list Event)
    (s s' : ImuSensor) (out : list Packet) :
  run es s = Ok (s', out) ->
  configuration s' = configuration s /\
  (parentEntity s = None ->
   forallb (fun e => negb (is_update e || is_rezero e)) es = true).
Proof.
  revert s out. induction es as [|e es IH]; intros s out H.
  - cbn in H. inversion H; subst. auto.
  - destruct (run_cons _ _ _ H) as (s1 & out1 & out2 & Hs & Hr & _).
    destruct (step_effect _ _ Hs) as (Hc & _).
    destruct (IH _ _ Hr) as [Hc' Hn]. split; [congruence|].
    intros Hp. cbn [forallb]. rewrite (step_needs_parent _ _ Hs Hp).
    apply Hn. unfold configuration in Hc. congruence.
Qed.

(** A tick, a delivery, a new reference and a deactivation leave the
    publisher "~/imu" in place. *)
Lemma run_keeps_configuration_witness :
  let w := Scenario.rest Scenario.second in
  let es := [EvUpdate w false; EvOnLinkData Scenario.sample_k;
             EvSetReferencePose w; EvSetActive false] in
  exists (s' : @ImuSensor Exact) (out : list (@Packet Exact)),
    run es Scenario.loaded = Ok (s', out) /\
    configuration s' = configuration Scenario.loaded.
Proof.
  intros w es. provide (run es Scenario.loaded).
  assert (H : run es Scenario.loaded = Ok (s, o)) by reflexivity.
  exact (conj H (proj1 (run_keeps_configuration _ _ H))).
Defined.

(** X6.  Ticks never drain the buffer.  Along every run from a buffer of
    at most 100 samples, whatever calls come between the deliveries, the
    buffer holds the last 100, in order, of what it held followed by the
    link data that arrived while the sensor was active. *)
Theorem run_buffer (N : Numeric) (es : list Event) (s s' : ImuSensor)
    (out : list Packet) :
  List.length (incomingLinkData s) <= 100 ->
  run es s = Ok (s', out) ->
  List.length (incomingLinkData s') <= 100 /\
  incomingLinkData s' =
  lastn 100 (incomingLinkData s ++ accepted_in_run es (active s)).
Proof.
  revert s out. induction es as [|e es IH]; intros s out Hl H.
  - cbn in H. inversion H; subst. cbn [accepted_in_run].
    rewrite app_nil_r, lastn_all by exact Hl. auto.
  - destruct (run_cons _ _ _ H) as (s1 & out1 & out2 & Hs & Hr & _).
    destruct (step_effect _ _ Hs) as (_ & Ha & Hb).
    assert (Hb1 : incomingLinkData s1 =
                  lastn 100 (incomingLinkData s ++ accepted_in_run [e] (active s))).
    { rewrite Hb. destruct e; cbn [accepted_in_run];
        rewrite ?app_nil_r, ?lastn_all by exact Hl; try reflexivity.
      destruct (active s) eqn:E.
      - apply OnLinkData_lastn; [exact E|exact Hl].
      - rewrite OnLinkData_inactive by exact E.
        rewrite app_nil_r, lastn_all by exact Hl. reflexivity. }
    assert (Hl1 : List.length (incomingLinkData s1) <= 100)
      by (rewrite Hb1, lastn_length; lia).
    destruct (IH _ _ Hl1 Hr) as [H1 H2]. split; [exact H1|].
    rewrite H2, Hb1, lastn_lastn_app, <- app_assoc. f_equal. f_equal.
    rewrite Ha. destruct e; cbn [accepted_in_run app]; try reflexivity.
    destruct (active s); reflexivity.
Qed.

(** Two deliveries with a tick between them: both samples are in the
    buffer afterwards. *)
Lemma run_buffer_witness :
  let w := Scenario.rest Scenario.second in
  let es := [EvOnLinkData Scenario.sample_k; EvUpdate w false;
             EvOnLinkData Scenario.sample_k] in
  exists (s' : @ImuSensor Exact) (out : list (@Packet Exact)),
    run es Scenario.loaded = Ok (s', out) /\
    incomingLinkData s' = [Scenario.sample_k; Scenario.sample_k].
Proof.
  intros w es. provide (run es Scenario.loaded).
  assert (H : run es Scenario.loaded = Ok (s, o)) by reflexivity.
  assert (Hl : List.length (incomingLinkData Scenario.loaded) <= 100)
    by (cbn; lia).
  exact (conj H (proj2 (@run_buffer Exact es _ _ _ Hl H))).
Defined.

Section RunMessages.
Context {N : Numeric}.

Lemma step_packets (e : Event) (s s' : ImuSensor) (out : list Packet)
    (q : Publisher) :
  step e s = Ok (s', out) ->
  pub s = Some q ->
  Forall (fun k => via k = q /\
                   exists m, payload k = MsgIMU m /\
                             entity_name m = parentName s) out.
Proof.
  destruct e as [w m|m|v|w|w f]; cbn [step].
  - destruct (OnResponse w m s); cbn [bind]; try discriminate.
    intros H _; inversion H; constructor.
  - intros H _; inversion H; constructor.
  - intros H _; inversion H; constructor.
  - destruct (SetReferencePose w s); cbn [bind]; try discriminate.
    intros H _; inversion H; constructor.
  - intros H Hq.
    destruct (UpdateImpl_reading _ _ _ H) as (p & _ & _ & _ & _ & _ & Hm & Ho).
    rewrite Hq in Ho. subst out. constructor; [|constructor].
    split; [reflexivity|]. exists (imuMsg s'). split; [reflexivity|].
    rewrite Hm. reflexivity.
Qed.


End RunMessages.

Section RunSilence.
Context {N : Numeric}.

(** A call that is no tick hands nothing to the transport, and a tick of
    a sensor with a publisher hands it one packet. *)
Lemma step_count (e : Event) (s s' : ImuSensor) (out : list Packet) :
  step e s = Ok (s', out) ->
  (is_update e = false -> out = []) /\
  (pub s <> None -> List.length out = if is_update e then 1 else 0).
Proof.
  destruct e as [w m|m|v|w|w f]; cbn [step is_update].
  - destruct (OnResponse w m s); cbn [bind]; try discriminate.
    intros H; inversion H; auto.
  - intros H; inversion H; auto.
  - intros H; inversion H; auto.
  - destruct (SetReferencePose w s); cbn [bind]; try discriminate.
    intros H; inversion H; auto.
  - intros H. split; [discriminate|]. intros Hq.
    destruct (UpdateImpl_reading _ _ _ H) as (p & _ & _ & _ & _ & _ & _ & Ho).
    rewrite Ho. destruct (pub s); [reflexivity|contradiction].
Qed.

End RunSilence.

(** X7.  [OnResponse], [OnLinkData], [SetActive] and [SetReferencePose]
    hand nothing to the transport: a run with no tick publishes nothing.
    On a sensor with a publisher, a run publishes one packet for each of
    its ticks, and every packet is an IMU message on this publisher that
    carries the name of the parent of the sensor. *)
Theorem run_packets (N : Numeric) (es : list Event) (s s' : ImuSensor)
    (out : list Packet) :
  run es s = Ok (s', out) ->
  (forallb (fun e => negb (is_update e)) es = true -> out = []) /\
  (forall q : Publisher,
     pub s = Some q ->
     List.length out = List.length (filter is_update es) /\
     Forall (fun k => via k = q /\
                      exists m, payload k = MsgIMU m /\
                                entity_name m = parentName s) out).
Proof.
  revert s out. induction es as [|e es IH]; intros s out H.
  - cbn in H. inversion H; subst. split; [reflexivity|].
    intros q _. split; [reflexivity|constructor].
  - destruct (run_cons _ _ _ H) as (s1 & out1 & out2 & Hs & Hr & ->).
    destruct (step_effect _ _ Hs) as (Hc & _). unfold configuration in Hc.
    destruct (step_count _ _ Hs) as [Hq1 Hn1].
    destruct (IH _ _ Hr) as [Hq2 Hp2]. split.
    + cbn [forallb]. intros Hn. apply andb_prop in Hn. destruct Hn as [He Hes].
      rewrite Hq1, Hq2; [reflexivity|exact Hes|].
      destruct (is_update e); [discriminate He|reflexivity].
    + intros q Hq.
      assert (Hq' : pub s1 = Some q) by congruence.
      destruct (Hp2 q Hq') as [Hl2 Hf2]. split.
      * rewrite length_app, Hl2, Hn1 by congruence. cbn [filter].
        destruct (is_update e); reflexivity.
      * apply Forall_app. split; [exact (step_packets _ _ Hs Hq)|].
        replace (parentName s) with (parentName s1) by congruence.
        exact Hf2.
Qed.

(** A tick, a delivery and another tick of the loaded sensor: two packets
    on "~/imu" that name "model::link". *)
Lemma run_packets_witness :
  let w := Scenario.rest Scenario.second in
  let es := [EvUpdate w false; EvOnLinkData Scenario.sample_k;
             EvUpdate w false] in
  exists (s' : @ImuSensor Exact) (out : list (@Packet Exact)),
    run es Scenario.loaded = Ok (s', out) /\
    List.length out = 2 /\
    Forall (fun k => via k = Advertise "~/imu" /\
                     exists m, payload k = MsgIMU m /\
                               entity_name m = "model::link"%string) out.
Proof.
  intros w es. provide (run es Scenario.loaded).
  assert (H : run es Scenario.loaded = Ok (s, o)) by reflexivity.
  exact (conj H
    (proj2 (@run_packets Exact es _ _ _ H) (Advertise "~/imu") eq_refl)).
Defined.



(** ** The stored time *)

Lemma Exact_dgt_time (t l : Z) :
  @dgt Exact (@Time_Double Exact (@Time_sub Exact t l)) (@d0 Exact) = true ->
  (l < t)%Z.
Proof.
  cbn [dgt Time_Double Time_sub d0 Exact].
  destruct (Qccompare _ _) eqn:E; try discriminate. intros _.
  unfold Qccompare in E. apply Qgt_alt in E.
  cbn [this Qcdiv Qcmult Qcinv Q2Qc] in E.
  rewrite !Qred_correct in E.
  unfold Qlt, Qmult, Qinv, inject_Z in E. cbn [Qnum Qden] in E.
  lia.
Qed.

Lemma step_time (e : Event) (s s' : @ImuSensor Exact)
    (out : list (@Packet Exact)) :
  step e s = Ok (s', out) ->
  (lastMeasurementTime s <= lastMeasurementTime s')%Z.
Proof.
  destruct e as [w m|m|v|w|w f]; cbn [step].
  - unfold OnResponse. destruct (requestMsg s) as [r|].
    + destruct (negb _); cbn [bind].
      * intros H; inversion H; subst. apply Z.le_refl.
      * destruct (parentEntity s); cbn [bind]; [|discriminate].
        intros H; inversion H; subst. apply Z.le_refl.
    + cbn [bind]. intros H; inversion H; subst. apply Z.le_refl.
  - intros H; inversion H; subst. rewrite (OnLinkData_only_buffer m s).
    apply Z.le_refl.
  - intros H; inversion H; subst. apply Z.le_refl.
  - unfold SetReferencePose. destruct (parentEntity s); cbn [bind];
      [|discriminate].
    intros H; inversion H; subst. apply Z.le_refl.
  - intros H.
    destruct (UpdateImpl_reading _ _ _ H) as (p & _ & _ & Ht & _).
    cbn zeta in Ht. rewrite Ht.
    destruct (dgt (dt_at w p s) d0) eqn:E; [|apply Z.le_refl].
    apply Exact_dgt_time in E. apply Z.lt_le_incl. exact E.
Qed.

Lemma Exact_dgt_time_after (t l : Z) :
  (l < t)%Z ->
  @dgt Exact (@Time_Double Exact (@Time_sub Exact t l)) (@d0 Exact) = true.
Proof.
  intros H. cbn [dgt Time_Double Time_sub d0 Exact].
  destruct (Qccompare _ _) eqn:E; [| |reflexivity]; exfalso;
    unfold Qccompare in E;
    [apply Qeq_alt in E|apply Qlt_alt in E];
    cbn [this Qcdiv Qcmult Qcinv Q2Qc] in E;
    rewrite !Qred_correct in E;
    unfold Qeq, Qlt, Qmult, Qinv, inject_Z in E; cbn [Qnum Qden] in E; lia.
Qed.

(** X9.  Over exact arithmetic, with times in nanoseconds: a tick whose
    time is not after the stored time leaves the stored time, and a tick
    whose time is after it stores the time of the tick; so after a tick
    the stored time is the later of the two, and along a run the stored
    time never goes back. *)
Theorem run_time_monotone :
  (forall (w : @World Exact) (f : bool) (s s' : @ImuSensor Exact)
          (out : list (@Packet Exact)) (p : LinkPtr),
     UpdateImpl w f s = Ok (s', out) ->
     parentEntity s = Some p ->
     let t := fst (sample_at w p s) in
     ((t <= lastMeasurementTime s)%Z ->
      lastMeasurementTime s' = lastMeasurementTime s) /\
     ((lastMeasurementTime s < t)%Z -> lastMeasurementTime s' = t) /\
     lastMeasurementTime s' = Z.max (lastMeasurementTime s) t) /\
  (forall (es : list (@Event Exact)) (s s' : @ImuSensor Exact)
          (out : list (@Packet Exact)),
     run es s = Ok (s', out) ->
     (lastMeasurementTime s <= lastMeasurementTime s')%Z).
Proof.
  split.
  - intros w f s s' out p H Hp t.
    destruct (UpdateImpl_reading _ _ _ H) as (p' & Hp' & _ & Ht & _).
    assert (p' = p) by congruence. subst p'. cbn zeta in Ht. fold t in Ht.
    destruct (dgt (dt_at w p s) d0) eqn:E.
    + apply Exact_dgt_time in E. fold t in E.
      repeat split; [lia|auto|lia].
    + assert (Hle : (t <= lastMeasurementTime s)%Z).
      { destruct (Z.le_gt_cases t (lastMeasurementTime s)) as [L|L];
          [exact L|].
        apply Exact_dgt_time_after in L. unfold dt_at in E. fold t in E.
        congruence. }
      repeat split; [auto|lia|lia].
  - intros es. induction es as [|e es IH]; intros s s' out H.
    + cbn in H. inversion H; subst. apply Z.le_refl.
    + destruct (run_cons _ _ _ H) as (s1 & out1 & out2 & Hs & Hr & _).
      apply Z.le_trans with (lastMeasurementTime s1);
        [exact (step_time _ _ Hs)|exact (IH _ _ _ Hr)].
Qed.

(** A tick at two seconds, then one at one second: the first stores two
    seconds, the second leaves them. *)
Lemma run_time_monotone_witness :
  let w2 := Scenario.rest (2 * Scenario.second) in
  let w1 := Scenario.rest Scenario.second in
  exists (s1 : @ImuSensor Exact) (out1 : list (@Packet Exact))
         (s2 : @ImuSensor Exact) (out2 : list (@Packet Exact)),
    UpdateImpl w2 false Scenario.loaded = Ok (s1, out1) /\
    UpdateImpl w1 false s1 = Ok (s2, out2) /\
    lastMeasurementTime s1 = (2 * Scenario.second)%Z /\
    lastMeasurementTime s2 = lastMeasurementTime s1.
Proof.
  intros w2 w1. provide (UpdateImpl w2 false Scenario.loaded).
  provide (UpdateImpl w1 false s).
  assert (H1 : UpdateImpl w2 false Scenario.loaded = Ok (s, o))
    by reflexivity.
  assert (H2 : UpdateImpl w1 false s = Ok (s0, o0)) by reflexivity.
  destruct (proj1 run_time_monotone w2 false Scenario.loaded s o 0%nat
              H1 eq_refl) as (_ & Hafter & _).
  destruct (proj1 run_time_monotone w1 false s s0 o0 0%nat H2 eq_refl)
    as (Hkeep & _ & _).
  assert (L1 : (lastMeasurementTime Scenario.loaded
                < fst (sample_at w2 0%nat Scenario.loaded))%Z)
    by (vm_compute; reflexivity).
  assert (L2 : (fst (sample_at w1 0%nat s) <= lastMeasurementTime s)%Z)
    by (vm_compute; discriminate).
  exact (conj H1 (conj H2 (conj (Hafter L1) (Hkeep L2)))).
Defined.

(** ** Ticks that follow one another *)

Section IdleTicks.
Context {N : Numeric}.

Lemma idle_tick_again (w : World) (f : bool) (s s1 : ImuSensor)
    (out : list Packet) (p : LinkPtr) :
  UpdateImpl w f s = Ok (s1, out) ->
  parentEntity s = Some p ->
  dgt (dt_at w p s) d0 = false ->
  parentEntity s1 = Some p /\
  dt_at w p s1 = dt_at w p s /\
  (forall v, into_body w p s1 v = into_body w p s v) /\
  pub s1 = pub s.
Proof.
  intros H Hp Hdt.
  destruct (UpdateImpl_frame _ _ _ H) as (_ & _ & _ & Hpose & _ & Hpe & _ & _ & Hpub & _).
  destruct (UpdateImpl_idle _ _ _ H Hp Hdt) as (_ & Ht & _).
  unfold dt_at, sample_at, into_body, imuPose_at.
  rewrite Hpose, Ht, Hpe. auto.
Qed.

End IdleTicks.

Lemma iter_pointwise (A : Type) (g h : A -> A) (n : nat) (x : A) :
  (forall a, g a = h a) -> Nat.iter n g x = Nat.iter n h x.
Proof.
  intros E. induction n as [|n IH]; [reflexivity|].
  rewrite !Nat.iter_succ, IH. apply E.
Qed.

(** X10.  A clock that stands still, or has gone back, is never caught up
    with: when a tick in a world finds [dt <= 0], so does every further
    tick in this world.  All [n] of them return, keep the stored velocity
    and time, and each subtracts the gravity of the body frame from the
    acceleration once more. *)
Theorem idle_ticks (N : Numeric) (n : nat) (w : World) (f : bool)
    (s : ImuSensor) (p : LinkPtr) :
  parentEntity s = Some p ->
  dgt (dt_at w p s) d0 = false ->
  exists s' out,
    run (ticks n w f) s = Ok (s', out) /\
    lastLinearVel s' = lastLinearVel s /\
    lastMeasurementTime s' = lastMeasurementTime s /\
    linearAcc s' =
      Nat.iter n (fun a => vsub a (into_body w p s (GetGravity w)))
               (linearAcc s).
Proof.
  revert s. induction n as [|n IH]; intros s Hp Hdt.
  - exists s, []. cbn. auto.
  - destruct (proj2 (UpdateImpl_returns w f s)) as (s1 & out1 & H1);
      [congruence|].
    destruct (idle_tick_again _ _ _ H1 Hp Hdt) as (Hp1 & Hdt1 & Hb & _).
    destruct (UpdateImpl_idle _ _ _ H1 Hp Hdt) as (Hv & Ht & Ha & _).
    destruct (IH s1 Hp1) as (s' & out & Hr & Hv' & Ht' & Ha');
      [rewrite Hdt1; exact Hdt|].
    exists s', (out1 ++ out). split; [|split; [congruence|split; [congruence|]]].
    + unfold ticks. cbn [repeat run step]. rewrite H1. cbn [bind fst snd].
      fold (ticks n w f). rewrite Hr. reflexivity.
    + rewrite Ha', Ha, Nat.iter_succ_r. apply iter_pointwise.
      intros a. rewrite Hb. reflexivity.
Qed.

(** Three ticks at the time the sensor already holds: the acceleration
    goes from zero to three times (0, 0, 9.8). *)
Lemma idle_ticks_witness :
  let w := Scenario.rest 0 in
  exists (s' : @ImuSensor Exact) (out : list (@Packet Exact)),
    run (ticks 3 w false) Scenario.loaded = Ok (s', out) /\
    lastMeasurementTime s' = lastMeasurementTime Scenario.loaded /\
    linearAcc s' = Scenario.vec 0 0 (Scenario.qc 147 5).
Proof.
  intros w.
  destruct (@idle_ticks Exact 3 w false Scenario.loaded 0%nat eq_refl eq_refl)
    as (s' & out & Hr & _ & Ht & Ha).
  exists s', out. split; [exact Hr|]. split; [exact Ht|].
  rewrite Ha. vec_eq.
Defined.

Lemma RotateVector_rest (q : @Quaternion Exact) (v : @Vector3 Exact)
    (dt : Qc) :
  RotateVector q (vdiv (vsub v v) dt) = Vector3_zero.
Proof.
  destruct q as [a b c d], v as [x y z].
  apply (@Vector3_ext Exact); exact_ops; unfold Qcdiv; ring.
Qed.

(** X11.  Over exact arithmetic, a tick with [dt > 0] that finds the
    velocity the sensor stored reports minus the gravity of the body
    frame, whatever the orientation of the sensor and the length of the
    step are, and stores the same velocity again. *)
Theorem constant_velocity_tick (w : @World Exact) (f : bool)
    (s s' : @ImuSensor Exact) (out : list (@Packet Exact)) (p : LinkPtr) :
  UpdateImpl w f s = Ok (s', out) ->
  parentEntity s = Some p ->
  @dgt Exact (dt_at w p s) d0 = true ->
  snd (sample_at w p s) = lastLinearVel s ->
  GetLinearAcceleration s' =
    vsub Vector3_zero (into_body w p s (GetGravity w)) /\
  lastLinearVel s' = lastLinearVel s.
Proof.
  intros H Hp Hdt Hv.
  destruct (UpdateImpl_differentiates _ _ _ H Hp Hdt) as (Ha & Hm & Hl & _).
  split; [|congruence].
  rewrite Hm, Ha, Hv. unfold into_body at 1.
  rewrite RotateVector_rest. reflexivity.
Qed.

(** The body that moves at (1, 0, 0), one second after the sensor stored
    this velocity: the tick reports (0, 0, 9.8). *)
Lemma constant_velocity_tick_witness :
  let w := Cruise.world Scenario.second in
  exists (s' : @ImuSensor Exact) (out : list (@Packet Exact)),
    UpdateImpl w false Scenario.braked = Ok (s', out) /\
    GetLinearAcceleration s' = Scenario.vec 0 0 (Scenario.qc 49 5).
Proof.
  intros w. provide (UpdateImpl w false Scenario.braked).
  assert (H : UpdateImpl w false Scenario.braked = Ok (s, o)) by reflexivity.
  split; [exact H|].
  rewrite (proj1 (@constant_velocity_tick w false Scenario.braked s o 0%nat
                    H eq_refl eq_refl eq_refl)).
  vec_eq.
Defined.

(** ** The reference pose *)

Section Capture.
Context {N : Numeric}.

(** Both [Load] and [SetReferencePose] leave the pose of the sensor in the
    world of the call as the reference pose. *)
Lemma capture_reference
    (Sensor_Load : string -> World -> ImuSensor -> Result ImuSensor)
    (_worldName : string) (w : World) (s s1 : ImuSensor) :
  Load Sensor_Load _worldName w s = Ok s1 \/ SetReferencePose w s = Ok s1 ->
  exists p, parentEntity s1 = Some p /\
            referencePose s1 = imuPose_at w p s1.
Proof.
  intros [H|H].
  - unfold Load in H. destruct (Sensor_Load _worldName w s) as [sb| |];
      cbn [bind] in H; try discriminate H.
    cbn [parentEntity set_parentEntity parentName] in H.
    destruct (shared_dynamic_cast_Link _) as [p|]; [|discriminate H].
    inversion H; subst. exists p. split; reflexivity.
  - unfold SetReferencePose in H. destruct (parentEntity s) as [p|] eqn:E;
      [|discriminate H].
    inversion H; subst. exists p. split; [exact E|reflexivity].
Qed.

Lemma set_referencePose_same (s : ImuSensor) :
  set_referencePose (referencePose s) s = s.
Proof. destruct s; reflexivity. Qed.

End Capture.

(** X12.  [Load] captures the reference pose as [SetReferencePose] does:
    a [SetReferencePose] in the world of a [Load] that returned changes
    nothing, and neither does a second [SetReferencePose] in the world of
    a first one. *)
Theorem SetReferencePose_after_capture (N : Numeric)
    (Sensor_Load : string -> World -> ImuSensor -> Result ImuSensor)
    (_worldName : string) (w : World) (s s1 : ImuSensor) :
  Load Sensor_Load _worldName w s = Ok s1 \/ SetReferencePose w s = Ok s1 ->
  SetReferencePose w s1 = Ok s1.
Proof.
  intros H. destruct (capture_reference _ _ _ _ H) as (p & Hp & Hr).
  unfold SetReferencePose. rewrite Hp. fold (imuPose_at w p s1).
  rewrite <- Hr, set_referencePose_same. reflexivity.
Qed.

(** After [Load] on the body with the orientation (3/5, 4/5, 0, 0). *)
Lemma SetReferencePose_after_capture_witness :
  let w := Scenario.tilted Scenario.second in
  exists s1 : @ImuSensor Exact,
    Load Scenario.base_Load "default" w (Scenario.fresh "model::link")
    = Ok s1 /\
    SetReferencePose w s1 = Ok s1.
Proof.
  intros w.
  provide (Load Scenario.base_Load "default" w (Scenario.fresh "model::link")).
  assert (H : Load Scenario.base_Load "default" w
                (Scenario.fresh "model::link") = Ok s) by reflexivity.
  exact (conj H
    (@SetReferencePose_after_capture Exact Scenario.base_Load
       "default" w (Scenario.fresh "model::link") s (or_introl H))).
Defined.

(** X13.  Over exact arithmetic, the first tick after the reference was
    captured, by [Load] or by [SetReferencePose], in the world of the
    capture, reports the identity as its orientation, when the
    orientation of the sensor in this world is a unit quaternion. *)
Theorem tick_after_capture
    (Sensor_Load :
       string -> @World Exact -> @ImuSensor Exact -> Result (@ImuSensor Exact))
    (_worldName : string) (w : @World Exact) (f : bool)
    (s s1 s2 : @ImuSensor Exact) (out : list (@Packet Exact)) (p : LinkPtr) :
  Load Sensor_Load _worldName w s = Ok s1 \/ SetReferencePose w s = Ok s1 ->
  UpdateImpl w f s1 = Ok (s2, out) ->
  parentEntity s1 = Some p ->
  @qnorm2 Exact (rot (imuPose_at w p s1)) = d1 ->
  GetOrientation s2 = Quaternion_identity.
Proof.
  intros Hc H Hp Hn.
  destruct (capture_reference _ _ _ _ Hc) as (p' & Hp' & Hr).
  assert (p' = p) by congruence. subst p'.
  destruct (UpdateImpl_reading _ _ _ H) as (p' & Hp'' & _ & _ & _ & _ & Hm & _).
  assert (p' = p) by congruence. subst p'.
  unfold GetOrientation. rewrite Hm. cbn [orientation]. rewrite Hr.
  apply qmul_GetInverse. rewrite Hn. discriminate.
Qed.

(** A new reference on the body with the orientation (3/5, 4/5, 0, 0),
    then a tick. *)
Lemma tick_after_capture_witness :
  let w := Scenario.tilted Scenario.second in
  exists (s1 s2 : @ImuSensor Exact) (out : list (@Packet Exact)),
    SetReferencePose w Scenario.loaded = Ok s1 /\
    UpdateImpl w false s1 = Ok (s2, out) /\
    GetOrientation s2 = Quaternion_identity.
Proof.
  intros w. provide (SetReferencePose w Scenario.loaded).
  provide (UpdateImpl w false s).
  assert (H1 : SetReferencePose w Scenario.loaded = Ok s) by reflexivity.
  assert (H2 : UpdateImpl w false s = Ok (s0, o)) by reflexivity.
  assert (Hn : @qnorm2 Exact (rot (imuPose_at w 0 s)) = d1) by qc_eq.
  exact (conj H1 (conj H2
    (@tick_after_capture Scenario.base_Load "default" w false
       Scenario.loaded s s0 o 0%nat (or_intror H1) H2 eq_refl Hn))).
Defined.

(** ** The newest sample *)

(** X14.  A delivery changes nothing but the buffer, and when the sensor
    is active the delivered sample is the last one of the buffer
    afterwards, whatever the buffer held. *)
Theorem OnLinkData_newest_last (N : Numeric) (m : LinkData) (s : ImuSensor) :
  OnLinkData m s = set_incomingLinkData (incomingLinkData (OnLinkData m s)) s /\
  (IsActive s = true ->
   spec_drain_latest (incomingLinkData (OnLinkData m s)) = Some m).
Proof.
  split; [apply OnLinkData_only_buffer|].
  intros Ha. rewrite (OnLinkData_active m s Ha).
  destruct (Nat.ltb_spec 100 (List.length (incomingLinkData s ++ [m])))
    as [H|H].
  - destruct (incomingLinkData s) as [|x b]; [cbn in H; lia|].
    cbn [app tl]. unfold spec_drain_latest. rewrite rev_app_distr.
    reflexivity.
  - unfold spec_drain_latest. rewrite rev_app_distr. reflexivity.
Qed.

(** A delivery to the active sensor with one sample in its buffer. *)
Lemma OnLinkData_newest_last_witness :
  IsActive Scenario.buffered = true /\
  spec_drain_latest
    (incomingLinkData (OnLinkData Scenario.sample_k Scenario.buffered))
  = Some Scenario.sample_k.
Proof.
  exact (conj eq_refl
    (proj2 (@OnLinkData_newest_last Exact Scenario.sample_k Scenario.buffered)
           eq_refl)).
Defined.

(** ** Two ticks in one world *)

(** X15.  Over exact arithmetic, a second tick in the world of a tick that
    returned returns too and finds [dt <= 0]: it keeps the stored velocity
    and time, and reports the acceleration of the first tick less the
    gravity of the body frame. *)
Theorem second_tick_is_idle (w : @World Exact) (f : bool)
    (s s1 : @ImuSensor Exact) (out1 : list (@Packet Exact)) (p : LinkPtr) :
  UpdateImpl w f s = Ok (s1, out1) ->
  parentEntity s = Some p ->
  exists s2 out2,
    UpdateImpl w f s1 = Ok (s2, out2) /\
    @dgt Exact (dt_at w p s1) d0 = false /\
    lastLinearVel s2 = lastLinearVel s1 /\
    lastMeasurementTime s2 = lastMeasurementTime s1 /\
    GetLinearAcceleration s2 =
      vsub (GetLinearAcceleration s1) (into_body w p s (GetGravity w)).
Proof.
  intros H Hp.
  destruct (UpdateImpl_frame _ _ _ H)
    as (_ & _ & _ & Hpose & _ & Hpe & _).
  destruct (UpdateImpl_reading _ _ _ H)
    as (p' & Hp' & _ & Ht & _ & _ & Hm & _).
  assert (p' = p) by congruence. subst p'. cbn zeta in Ht.
  assert (Hp1 : parentEntity s1 = Some p) by congruence.
  assert (Hs : sample_at w p s1 = sample_at w p s)
    by (unfold sample_at; rewrite Hpose; reflexivity).
  assert (Hdt : @dgt Exact (dt_at w p s1) d0 = false).
  { destruct (dgt (dt_at w p s) d0) eqn:E.
    - clear E. unfold dt_at. rewrite Hs, Ht.
      destruct (dgt _ _) eqn:E'; [|reflexivity].
      apply Exact_dgt_time in E'. lia.
    - unfold dt_at in E |- *. rewrite Hs, Ht. exact E. }
  destruct (proj2 (UpdateImpl_returns w f s1)) as (s2 & out2 & H2);
    [congruence|].
  destruct (UpdateImpl_idle _ _ _ H2 Hp1 Hdt) as (Hv & Ht2 & Ha & Hg).
  exists s2, out2. repeat split; try assumption.
  rewrite Hg, Ha. unfold GetLinearAcceleration. rewrite Hm.
  cbn [linear_acceleration]. unfold into_body, imuPose_at.
  rewrite Hpose. reflexivity.
Qed.

(** The body that moves at (1, 0, 0): the first tick reports (0, 0, 9.8),
    the second one in the same world (0, 0, 19.6). *)
Lemma second_tick_is_idle_witness :
  let w := Cruise.world Scenario.second in
  exists (s1 : @ImuSensor Exact) (out1 : list (@Packet Exact))
         (s2 : @ImuSensor Exact) (out2 : list (@Packet Exact)),
    UpdateImpl w false Scenario.braked = Ok (s1, out1) /\
    UpdateImpl w false s1 = Ok (s2, out2) /\
    GetLinearAcceleration s2 = Scenario.vec 0 0 (Scenario.qc 98 5).
Proof.
  intros w. provide (UpdateImpl w false Scenario.braked).
  assert (H : UpdateImpl w false Scenario.braked = Ok (s, o)) by reflexivity.
  destruct (@second_tick_is_idle w false Scenario.braked s o 0%nat H eq_refl)
    as (s2 & out2 & H2 & _ & _ & _ & Ha).
  exists s2, out2. split; [exact H|]. split; [exact H2|].
  rewrite Ha. vec_eq.
Defined.
